(** * Cache warmer epics (packages/core/bootstrap/src/lib/cache-warmer)

    A shallow embedding of [epics.ts] and [selectors.ts]: the four epics
    [executeHandler], [warmupSubscriber], [warmupRequestHandler] and
    [warmupUnsubscriber], with the JavaScript operators they rely on
    ([||], [??], [?.], truthiness) written out, and the RxJS pipelines read
    as functions on finite timed traces of the action bus. The
    configuration and endpoint routing of two source adapters follow the
    same conventions. *)

From Stdlib Require Import ZArith Lia.
From stdpp Require Import base strings list gmap sorting.

Local Open Scope Z_scope.
Set Warnings "-register-all".

(** ** The fragment of JavaScript the epics use *)
Module Js.

(** JSON-like values; numbers are integers (no NaN, no fractions). *)
Inductive value :=
| VUndefined
| VNull
| VBool (b : bool)
| VNum (n : Z)
| VStr (s : string)
| VArr (items : list value)
| VObj (fields : list (string * value)).

(** A plain object, its properties in enumeration order. *)
Definition obj (A : Type) := list (string * A).

Inductive error :=
| TypeError (msg : string)
| Error (msg : string).

Inductive result (A : Type) :=
| Ok (a : A)
| Throw (e : error).
Arguments Ok {A} a.
Arguments Throw {A} e.

Definition str_truthy (s : string) : bool := negb (String.eqb s "").
Definition num_truthy (n : Z) : bool := negb (n =? 0).

Definition truthy (v : value) : bool :=
  match v with
  | VUndefined | VNull => false
  | VBool b => b
  | VNum n => num_truthy n
  | VStr s => str_truthy s
  | VArr _ | VObj _ => true
  end.

(** A property that may be missing: [None] is [undefined]. *)
Definition opt_truthy {A} (t : A -> bool) (o : option A) : bool :=
  match o with Some a => t a | None => false end.

(** Every function object is truthy. *)
Definition fn_truthy {A B} (f : A -> B) : bool := true.

(** [a || b]: the left operand when it is truthy, else the right one. *)
Definition or {A} (t : A -> bool) (a b : A) : A := if t a then a else b.

(** [a || b] where [a] may be [undefined]. *)
Definition or_default {A} (t : A -> bool) (a : option A) (b : A) : A :=
  match a with Some x => or t x b | None => b end.

(** [a ?? b]: the right operand only when the left one is null or undefined. *)
Definition nullish (a b : value) : value :=
  match a with VUndefined | VNull => b | _ => a end.

(** [o[k]] on a plain object. *)
Definition get {A} (o : obj A) (k : string) : option A :=
  snd <$> List.find (fun kv => String.eqb (fst kv) k) o.

Definition get_value (o : obj value) (k : string) : value :=
  default VUndefined (get o k).

(** [o[k] = v]: an existing property keeps its place, a new one goes last.
    That is the enumeration order of JavaScript for keys that are not
    array indices (field names, hashes); index-like keys, which JavaScript
    enumerates first and in numeric order, are not told apart here. *)
Fixpoint set {A} (o : obj A) (k : string) (v : A) : obj A :=
  match o with
  | [] => [(k, v)]
  | (k', v') :: o' => if String.eqb k' k then (k, v) :: o' else (k', v') :: set o' k v
  end.

(** [Object.fromEntries]. *)
Definition fromEntries {A} (es : list (string * A)) : obj A :=
  fold_left (fun o kv => set o (fst kv) (snd kv)) es [].

Definition keys {A} (o : obj A) : list string := map fst o.

Definition isArray (v : value) : bool :=
  match v with VArr _ => true | _ => false end.

(** [v.length]; reading a property of [undefined] or [null] throws. *)
Definition length_of (v : value) : result value :=
  match v with
  | VUndefined => Throw (TypeError "Cannot read properties of undefined (reading 'length')")
  | VNull => Throw (TypeError "Cannot read properties of null (reading 'length')")
  | VArr items => Ok (VNum (Z.of_nat (length items)))
  | VStr s => Ok (VNum (Z.of_nat (String.length s)))
  | VObj fields => Ok (get_value fields "length")
  | VBool _ | VNum _ => Ok VUndefined
  end.

(** [v > 0] for the operands [length_of] yields on arrays and strings
    (numbers) and on values without a length ([undefined] compares false).
    The string-to-number conversion of other operands is not modelled. *)
Definition gt_zero (v : value) : bool :=
  match v with
  | VNum n => 0 <? n
  | VBool b => b
  | _ => false
  end.

(** [o?.f] on a property that may be missing. *)
Definition chain {A B} (o : option A) (f : A -> option B) : option B :=
  match o with Some a => f a | None => None end.

Definition bind {A B} (r : result A) (k : A -> result B) : result B :=
  match r with Ok a => k a | Throw e => Throw e end.

End Js.

(** ** Data model ([actions.ts], the reducer's state, [config.ts]) *)

(** What calling an executor does: it returns a promise that resolves or
    rejects, or it throws before it returns one. *)
Inductive Outcome :=
| Resolved
| Rejected (err : string)
| Threw (err : string).

Record AdapterRequest := {
  rq_id : string;
  rq_data : Js.obj Js.value;
}.

(** A function object: its identity, its source text ([toString()]) and
    what calling it does. *)
Record Execute := {
  fn_ref : nat;
  fn_toString : string;
  fn_call : AdapterRequest -> Outcome;
}.

Record Debug := { batchKey : option string }.

(** [data.results]: the [[request, index]] pairs of a batched response. *)
Record ResponseData := { results : option (list (Js.obj Js.value * Z)) }.

Record AdapterResponse := {
  maxAge : option Z;
  debug : option Debug;
  rs_data : option ResponseData;
}.

Record WarmupExecutePayload := {
  ex_id : string;
  ex_data : Js.obj Js.value;
  ex_executeFn : Execute;
  ex_result : option AdapterResponse;
}.

(** [WarmupSubscribedPayload]; [sb_data] is [None] once [omit] dropped it. *)
Record WarmupSubscribedPayload := {
  sb_id : string;
  sb_data : option (Js.obj Js.value);
  sb_executeFn : Execute;
  sb_result : option AdapterResponse;
  sb_key : option string;
  sb_parent : option string;
  sb_batchKey : option string;
  sb_childLastSeenById : option (Js.obj Z);
}.

Record WarmupJoinGroupPayload := {
  jg_parent : string;
  jg_childLastSeenById : Js.obj Z;
  jg_batchKey : string;
}.

Inductive Action :=
| warmupExecute (p : WarmupExecutePayload)
| warmupSubscribed (p : WarmupSubscribedPayload)
| warmupSubscriptionTimeoutReset (key : string)
| warmupUnsubscribed (key : string)
| warmupStopped (key : string)
| warmupJoinGroup (p : WarmupJoinGroupPayload)
| warmupLeaveGroup (parent : string) (batchKey : string)
| warmupRequested (key : string)
| warmupFulfilled (key : string)
| warmupFailed (key : string) (err : string).

(** The [match] guard of each action creator tests the action's type. *)
Definition warmupUnsubscribed_match (a : Action) : bool :=
  match a with warmupUnsubscribed _ => true | _ => false end.

Definition warmupStopped_match (a : Action) : bool :=
  match a with warmupStopped _ => true | _ => false end.

(** [a.payload.key] where the payload has one. *)
Definition payload_key (a : Action) : option string :=
  match a with
  | warmupSubscribed p => sb_key p
  | warmupSubscriptionTimeoutReset k | warmupUnsubscribed k | warmupStopped k
  | warmupRequested k | warmupFulfilled k | warmupFailed k _ => Some k
  | warmupExecute _ | warmupJoinGroup _ | warmupLeaveGroup _ _ => None
  end.

Record SubscriptionState := {
  origin : Js.obj Js.value;
  executeFn : Execute;
  isDuplicate : bool;
  childLastSeenById : option (Js.obj Z);
}.

Record WarmupState := { errorCount : Z }.

(** [state.cacheWarmer]: the subscriptions in enumeration order
    ([Object.entries] walks them), the warm-up counters by key. *)
Record CacheWarmerState := {
  subscriptions : Js.obj SubscriptionState;
  warmups : gmap string WarmupState;
}.

Record Config := {
  warmupInterval : Z;
  unhealthyThreshold : Z;
  subscriptionTTL : Z;
}.

(** [BatchWarmerSubscriptionKey] of [selectors.ts]: [existingKey] tells
    whether [bw_key] (the source's [key]) comes from an existing subscription. *)
Record BatchWarmerSubscriptionKey := {
  existingKey : bool;
  bw_key : string;
}.

(** One action on the bus: when it was dispatched and the value of [state$]
    that [withLatestFrom] pairs it with. *)
Record Dispatch := {
  d_time : Z;
  d_action : Action;
  d_state : CacheWarmerState;
}.

(** A stream, as the finite list of its timed emissions. *)
Definition Stream (A : Type) := list (Z * A).

(** [{ ...payload }]: an execute payload read as a subscribe payload. *)
Definition spread (payload : WarmupExecutePayload) : WarmupSubscribedPayload :=
  {| sb_id := ex_id payload;
     sb_data := Some (ex_data payload);
     sb_executeFn := ex_executeFn payload;
     sb_result := ex_result payload;
     sb_key := None;
     sb_parent := None;
     sb_batchKey := None;
     sb_childLastSeenById := None |}.

(** [omit(payload, ['data'])]. *)
Definition omit_data (payload : WarmupSubscribedPayload) : WarmupSubscribedPayload :=
  {| sb_id := sb_id payload;
     sb_data := None;
     sb_executeFn := sb_executeFn payload;
     sb_result := sb_result payload;
     sb_key := sb_key payload;
     sb_parent := sb_parent payload;
     sb_batchKey := sb_batchKey payload;
     sb_childLastSeenById := sb_childLastSeenById payload |}.

Definition with_data (payload : WarmupSubscribedPayload) (data : Js.obj Js.value)
  : WarmupSubscribedPayload :=
  {| sb_id := sb_id payload;
     sb_data := Some data;
     sb_executeFn := sb_executeFn payload;
     sb_result := sb_result payload;
     sb_key := sb_key payload;
     sb_parent := sb_parent payload;
     sb_batchKey := sb_batchKey payload;
     sb_childLastSeenById := sb_childLastSeenById payload |}.

Definition subscribed_payload (a : Action) : option WarmupSubscribedPayload :=
  match a with warmupSubscribed p => Some p | _ => None end.

(** [payload.result?.debug?.batchKey] *)
Definition result_batchKey (payload : WarmupExecutePayload) : option string :=
  Js.chain (Js.chain (ex_result payload) debug) batchKey.

(** [payload.result?.data?.results] *)
Definition result_results (payload : WarmupExecutePayload)
  : option (list (Js.obj Js.value * Z)) :=
  Js.chain (Js.chain (ex_result payload) rs_data) results.

(** The predicate of [partition] in [executeHandler]. *)
Definition isBatchExecute (payload : WarmupExecutePayload) : bool :=
  Js.opt_truthy Js.str_truthy (result_batchKey payload).

Definition createChildSubscriptionActions (payload : WarmupExecutePayload)
    (batchWarmerSubscriptionKey : string) (batchKey : option string) : list Action :=
  let subscriptionPayload :=
    {| sb_id := ex_id payload;
       sb_data := Some (ex_data payload);
       sb_executeFn := ex_executeFn payload;
       sb_result := ex_result payload;
       sb_key := None;
       sb_parent := Some batchWarmerSubscriptionKey;
       sb_batchKey := batchKey;
       sb_childLastSeenById := None |} in
  match result_results payload with
  | Some rs => map (fun r => warmupSubscribed (with_data subscriptionPayload (fst r))) rs
  | None => [warmupSubscribed subscriptionPayload]
  end.

Definition createParentSubscriptionAction (batchKey : string)
    (batchWarmerSubscriptionKey : BatchWarmerSubscriptionKey)
    (childLastSeenById : Js.obj Z) (payload : WarmupExecutePayload) : Action :=
  if existingKey batchWarmerSubscriptionKey then
    warmupJoinGroup {| jg_parent := bw_key batchWarmerSubscriptionKey;
                       jg_childLastSeenById := childLastSeenById;
                       jg_batchKey := batchKey |}
  else
    let subscriptionPayload :=
      {| sb_id := ex_id payload;
         sb_data := Some (ex_data payload);
         sb_executeFn := ex_executeFn payload;
         sb_result := ex_result payload;
         sb_key := Some (bw_key batchWarmerSubscriptionKey);
         sb_parent := None;
         sb_batchKey := Some batchKey;
         sb_childLastSeenById := Some childLastSeenById |} in
    if negb (Js.isArray (Js.get_value (ex_data payload) batchKey)) then
      warmupSubscribed
        (with_data subscriptionPayload
           (Js.set (ex_data payload) batchKey
              (Js.VArr [Js.get_value (ex_data payload) batchKey])))
    else warmupSubscribed subscriptionPayload.

(** The longest delay the timers of the platform take: [2^31 - 1] ms. *)
Definition TIMEOUT_MAX : Z := 2147483647.

(** The interval a [timer] repeats at: RxJS takes a period below 1 as 1,
    and the platform turns a delay above [TIMEOUT_MAX] into 1. *)
Definition timerInterval (period : Z) : Z :=
  if (period <? 1) || (TIMEOUT_MAX <? period) then 1 else period.

(** [timer(dueTime, period)] subscribed at [start]: its first [n] ticks. *)
Definition timer (start dueTime period : Z) (n : nat) : list Z :=
  map (fun k => start + dueTime + Z.of_nat k * timerInterval period) (seq 0%nat n).

(** [delay(due)] holds an emission back for [|due|]: never a negative time. *)
Definition delayFor (due : Z) : Z := Z.abs due.

Fixpoint take_while {A} (f : A -> bool) (l : list A) : list A :=
  match l with
  | [] => []
  | x :: l' => if f x then x :: take_while f l' else []
  end.

(** [mergeMap] over the hot action bus: the inner stream of an action may
    listen to the actions dispatched after it. *)
Fixpoint mergeMap_hot {A B} (project : A -> list A -> list B) (bus : list A) : list B :=
  match bus with
  | [] => []
  | d :: later => project d later ++ mergeMap_hot project later
  end.

(** Emissions of merged streams come out in the order of their times. *)
Definition earlier {A} (x y : Z * A) : Prop := fst x <= fst y.

#[global] Instance earlier_dec {A} (x y : Z * A) : Decision (earlier x y) :=
  decide (fst x <= fst y).

Definition merge_by_time {A} (s : Stream A) : Stream A :=
  merge_sort earlier s.

(** ** Source adapters: configuration and endpoint routing *)

(** The part of [Config] ([@chainlink/types]) the adapters touch: the base
    URL of the API settings, and everything else kept as it is. *)
Record AdapterConfig (Rest : Type) := {
  api_baseURL : option string;
  cfg_rest : Rest;
}.
Arguments api_baseURL {Rest} _.
Arguments cfg_rest {Rest} _.

(** [config.api.baseURL = config.api.baseURL || url] *)
Definition withBaseURL {Rest} (config : AdapterConfig Rest) (url : string)
  : AdapterConfig Rest :=
  {| api_baseURL := Some (Js.or_default Js.str_truthy (api_baseURL config) url);
     cfg_rest := cfg_rest config |}.

(** [packages/sources/covid-tracker/src/config.ts] *)
Module CovidTracker.

Definition DEFAULT_ENDPOINT : string := "us".
Definition DEFAULT_BASE_URL : string := "https://api.covidtracking.com/v1".

(** [getDefaultConfig] stands for [Requester.getDefaultConfig]. *)
Definition makeConfig {Rest} (getDefaultConfig : option string -> AdapterConfig Rest)
    (prefix : option string) : AdapterConfig Rest :=
  let config := getDefaultConfig prefix in
  withBaseURL config DEFAULT_BASE_URL.

End CovidTracker.

(** The adapter whose default endpoint is [bandwidth]: its [config.ts] and
    [adapter.ts]. *)
Module Orchid.

Definition DEFAULT_ENDPOINT : string := "bandwidth".
Definition DEFAULT_BASE_URL : string := "https://chainlink.orchid.com/0".

Definition makeConfig {Rest} (getDefaultConfig : option string -> AdapterConfig Rest)
    (prefix : option string) : AdapterConfig Rest :=
  let config := getDefaultConfig prefix in
  withBaseURL config DEFAULT_BASE_URL.

Record AdapterError := {
  jobRunID : string;
  message : string;
  statusCode : Z;
}.

(** What [new Validator(request, inputParams)] holds: an error, or the
    validated id and the optional [endpoint] of the validated data. *)
Record Validator := {
  error : option string;
  validated_id : string;
  validated_endpoint : option string;
}.

Inductive Thrown :=
| ValidationError (e : string)
| EndpointError (e : AdapterError).

(** The endpoint handler a request is handed to, with the configuration. *)
Inductive Routed (Rest : Type) :=
| stats_execute (config : AdapterConfig Rest)
| balance_execute (config : AdapterConfig Rest).
Arguments stats_execute {Rest} config.
Arguments balance_execute {Rest} config.

(** [execute]; [balance_Name] stands for [balance.Name] of the endpoint module. *)
Definition execute {Rest} (balance_Name : string) (validator : Validator)
    (config : AdapterConfig Rest) : Thrown + Routed Rest :=
  match error validator with
  | Some e => inl (ValidationError e)
  | None =>
      let jobRunID := validated_id validator in
      let endpoint :=
        Js.or_default Js.str_truthy (validated_endpoint validator) DEFAULT_ENDPOINT in
      if String.eqb endpoint "difficulty" || String.eqb endpoint "height" then
        inr (stats_execute config)
      else if String.eqb endpoint balance_Name then
        inr (balance_execute config)
      else
        inl (EndpointError
               {| jobRunID := jobRunID;
                  message := "Endpoint " ++ endpoint ++ " not supported.";
                  statusCode := 400 |})
  end.

(** [makeExecute]: [execute(request, config || makeConfig())]. *)
Definition makeExecute {Rest} (getDefaultConfig : option string -> AdapterConfig Rest)
    (balance_Name : string) (config : option (AdapterConfig Rest))
    (validator : Validator) : Thrown + Routed Rest :=
  execute balance_Name validator
    (match config with
     | Some c => c
     | None => makeConfig getDefaultConfig None
     end).

End Orchid.

(** ** The epics *)
Section Epics.

(** [getSubscriptionKey] of [util.ts], the fingerprint of a payload. *)
Variable getSubscriptionKey : WarmupSubscribedPayload -> string.

(** [WARMUP_REQUEST_ID] of [config.ts]. *)
Variable WARMUP_REQUEST_ID : string.

(** When a timer falls due at the very instant an action is dispatched,
    [bus_first] tells which of the two is delivered first. *)
Variable bus_first : bool.

Definition precedes (t_bus t_timer : Z) : bool :=
  if bus_first then t_bus <=? t_timer else t_bus <? t_timer.

(** [takeUntil(notifier)]: the source stops at the notifier's first emission. *)
Definition takeUntil {A} (source : Stream A) (notifier : list Z) : Stream A :=
  match notifier with
  | [] => source
  | t :: _ => take_while (fun e => negb (precedes t (fst e))) source
  end.

(** [race(reset$, timeout$)] where each side emits at most once. *)
Definition race {A} (reset : option (Z * A)) (timeout : Z * A) : Z * A :=
  match reset with
  | Some r => if precedes (fst r) (fst timeout) then r else timeout
  | None => timeout
  end.

(** *** selectors.ts *)

Definition isBatchWarmerFor (payload : WarmupExecutePayload)
    (entry : string * SubscriptionState) : bool :=
  let subscriptionState := snd entry in
  let isBatchWarmerSubscription :=
    Js.opt_truthy (fun _ => true) (childLastSeenById subscriptionState) in
  let isMatchingSubscription :=
    String.eqb (fn_toString (executeFn subscriptionState))
               (fn_toString (ex_executeFn payload)) in
  isBatchWarmerSubscription && isMatchingSubscription.

Definition selectBatchWarmerSubscriptionKey (state : CacheWarmerState)
    (payload : WarmupExecutePayload) : BatchWarmerSubscriptionKey :=
  match List.find (isBatchWarmerFor payload) (subscriptions state) with
  | None =>
      {| existingKey := false;
         bw_key := getSubscriptionKey (omit_data (spread payload)) |}
  | Some batchWarmerSubscription =>
      {| existingKey := true; bw_key := fst batchWarmerSubscription |}
  end.

(** *** executeHandler *)

(** The body of [subscribeBatch$] for one action of [batchExecute$];
    [Date.now()] is read once per child, and [now i] is the reading for the
    child at index [i]. *)
Definition subscribeBatch (now : nat -> Z) (state : CacheWarmerState)
    (payload : WarmupExecutePayload) : Js.result (list Action) :=
  let batchWarmerSubscriptionKey := selectBatchWarmerSubscriptionKey state payload in
  let batchKey := result_batchKey payload in
  if negb (Js.opt_truthy Js.str_truthy batchKey) then
    Js.Throw (Js.Error "No batch key found, state invariant violated")
  else
    let childSubscriptions :=
      createChildSubscriptionActions payload (bw_key batchWarmerSubscriptionKey) batchKey in
    let childLastSeenById :=
      Js.fromEntries
        (imap (fun i p => (getSubscriptionKey p, now i))
              (omap subscribed_payload childSubscriptions)) in
    let parentSubscription :=
      createParentSubscriptionAction (default "" batchKey) batchWarmerSubscriptionKey
        childLastSeenById payload in
    Js.Ok (childSubscriptions ++ [parentSubscription]).

(** What [executeHandler] emits for one action. *)
Definition executeHandler (now : nat -> Z) (state : CacheWarmerState) (a : Action)
  : Js.result (list Action) :=
  match a with
  | warmupExecute payload =>
      if isBatchExecute payload then subscribeBatch now state payload
      else Js.Ok [warmupSubscribed (spread payload)]
  | _ => Js.Ok []
  end.

(** *** warmupSubscriber *)

(** [payload.key || getSubscriptionKey(payload)] *)
Definition subscriptionKey (payload : WarmupSubscribedPayload) : string :=
  Js.or_default Js.str_truthy (sb_key payload) (getSubscriptionKey payload).

(** The [filter] in front of the timers. *)
Definition startsWarmup (payload : WarmupSubscribedPayload) (key : string)
    (state : CacheWarmerState) : bool :=
  if Js.opt_truthy Js.str_truthy (sb_parent payload) then false
  else negb (Js.opt_truthy isDuplicate (Js.get (subscriptions state) key)).

(** [payload?.result?.maxAge || config.warmupInterval] *)
Definition warmupPeriod (config : Config) (payload : WarmupSubscribedPayload) : Z :=
  Js.or_default Js.num_truthy (Js.chain (sb_result payload) maxAge) (warmupInterval config).

(** [warmupUnsubscribed.match || warmupStopped.match] *)
Definition cancelMatch : Action -> bool :=
  Js.or Js.fn_truthy warmupUnsubscribed_match warmupStopped_match.

(** The notifier of [takeUntil]: when the later actions that pass both
    filters are dispatched. *)
Definition cancelSignal (key : string) (later : list Dispatch) : list Z :=
  map d_time
    (List.filter (fun d => bool_decide (payload_key (d_action d) = Some key))
       (List.filter (fun d => cancelMatch (d_action d)) later)).

(** The inner stream [mergeMap] starts for one dispatched action: the first
    [n] ticks of its timer, cut at the cancel signal. *)
Definition warmup (config : Config) (n : nat) (d : Dispatch) (later : list Dispatch)
  : Stream Action :=
  match d_action d with
  | warmupSubscribed payload =>
      let key := subscriptionKey payload in
      if startsWarmup payload key (d_state d) then
        takeUntil
          (map (fun t => (t, warmupRequested key))
               (timer (d_time d) 0 (warmupPeriod config payload) n))
          (cancelSignal key later)
      else []
  | _ => []
  end.

Definition warmupSubscriber (config : Config) (n : nat) (bus : list Dispatch)
  : Stream Action :=
  merge_by_time (mergeMap_hot (warmup config n) bus).

(** *** warmupRequestHandler *)

Definition warmupRequestHandler (state : CacheWarmerState) (a : Action)
  : Js.result (list Action) :=
  match a with
  | warmupRequested key =>
      match Js.get (subscriptions state) key with
      | None =>
          Js.Throw (Js.TypeError "Cannot read properties of undefined (reading 'executeFn')")
      | Some requestData =>
          match fn_call (executeFn requestData)
                  {| rq_id := WARMUP_REQUEST_ID;
                     rq_data := Js.set (origin requestData) "maxAge" (Js.VNum (-1)) |} with
          | Resolved => Js.Ok [warmupFulfilled key]
          | Rejected error => Js.Ok [warmupFailed key error]
          | Threw error => Js.Throw (Js.Error error)
          end
      end
  | _ => Js.Ok []
  end.

(** *** warmupUnsubscriber *)

(** [warmups[key]?.errorCount ?? 0 >= config.unhealthyThreshold]:
    [>=] binds tighter than [??]. *)
Definition isUnhealthy (config : Config) (state : CacheWarmerState) (key : string)
  : Js.value :=
  Js.nullish
    (match warmups state !! key with
     | Some w => Js.VNum (errorCount w)
     | None => Js.VUndefined
     end)
    (Js.VBool (0 >=? unhealthyThreshold config)).

Definition unsubscribeOnFailure (config : Config) (state : CacheWarmerState)
    (a : Action) : list Action :=
  match a with
  | warmupFailed key _ =>
      if Js.truthy (isUnhealthy config state key) then [warmupUnsubscribed key] else []
  | _ => []
  end.

Definition keyedSubscription (bus : list Dispatch)
  : Stream (WarmupSubscribedPayload * string) :=
  omap (fun d => (fun p => (d_time d, (p, getSubscriptionKey p)))
                   <$> subscribed_payload (d_action d)) bus.

(** [({ key: keyB }) => key === keyB] *)
Definition sameKey (key : string) (s : Z * (WarmupSubscribedPayload * string)) : bool :=
  String.eqb key (snd (snd s)).

(** The inner stream of [unsubscribeOnTimeout$] for one keyed subscription. *)
Definition timeoutRace (config : Config)
    (s : Z * (WarmupSubscribedPayload * string))
    (later : Stream (WarmupSubscribedPayload * string)) : Stream Action :=
  let key := snd (snd s) in
  let reset :=
    (fun r => (fst r, warmupSubscriptionTimeoutReset key))
      <$> List.find (sameKey key) later in
  let timeout :=
    (fst s + delayFor (subscriptionTTL config), warmupUnsubscribed key) in
  [race reset timeout].

Definition unsubscribeOnTimeout (config : Config) (bus : list Dispatch) : Stream Action :=
  merge_by_time (mergeMap_hot (timeoutRace config) (keyedSubscription bus)).

Definition stopOnBatch (a : Action) : list Action :=
  match a with
  | warmupSubscribed payload =>
      if Js.opt_truthy (fun _ => true) (sb_childLastSeenById payload) then
        map warmupStopped (Js.keys (default [] (sb_childLastSeenById payload)))
      else []
  | _ => []
  end.

Definition unsubscribeOnBatchEmpty (state : CacheWarmerState) (a : Action)
  : Js.result (list Action) :=
  match a with
  | warmupLeaveGroup parent batchKey =>
      match Js.get (subscriptions state) parent with
      | None =>
          Js.Throw (Js.TypeError "Cannot read properties of undefined (reading 'origin')")
      | Some subscription =>
          Js.bind (Js.length_of (Js.get_value (origin subscription) batchKey))
            (fun len =>
               if Js.gt_zero len then Js.Ok [warmupUnsubscribed parent] else Js.Ok [])
      end
  | _ => Js.Ok []
  end.

(** *** The behaviour the documentation describes, for comparison *)

(** The error-threshold rule in words: the entry's error count (none counts
    as zero) has reached the configured threshold. *)
Definition reachedThreshold_documented (config : Config) (state : CacheWarmerState)
    (key : string) : bool :=
  default 0 (errorCount <$> warmups state !! key) >=? unhealthyThreshold config.

Definition isUnsubscribedOf (key : string) (a : Action) : bool :=
  match a with warmupUnsubscribed k => String.eqb k key | _ => false end.

(** Consecutive times of a list are less than [ttl] apart. *)
Fixpoint gaps_below (ttl : Z) (ts : list Z) : Prop :=
  match ts with
  | t :: ((t' :: _) as rest) => t' < t + ttl /\ gaps_below ttl rest
  | _ => True
  end.

(** When the races started by one key's subscribes, dispatched at [ts], time
    out: a race is reset when the next subscribe precedes its deadline. *)
Fixpoint expirations (ttl : Z) (ts : list Z) : list Z :=
  match ts with
  | [] => []
  | t :: rest =>
      match rest with
      | [] => [t + ttl]
      | t' :: _ =>
          if precedes t' (t + ttl) then expirations ttl rest
          else (t + ttl) :: expirations ttl rest
      end
  end.

(** When the subscribe actions whose fingerprint is [key] were dispatched. *)
Definition subscribeTimes (key : string) (bus : list Dispatch) : list Z :=
  map fst (List.filter (sameKey key) (keyedSubscription bus)).

(** *** Example data *)

(** Two closures made by two calls of one factory: distinct function
    objects with the same source text. *)
Definition execute_a : Execute :=
  {| fn_ref := 1;
     fn_toString := "async (request) => execute(request, config || makeConfig())";
     fn_call := fun _ => Resolved |}.

Definition execute_b : Execute :=
  {| fn_ref := 2;
     fn_toString := "async (request) => execute(request, config || makeConfig())";
     fn_call := fun _ => Rejected "upstream down" |}.

(** A fingerprint for the examples: the [symbol] of the data, or the id
    when the data was omitted. *)
Definition sample_key (payload : WarmupSubscribedPayload) : string :=
  match sb_data payload with
  | Some data =>
      match Js.get data "symbol" with
      | Some (Js.VStr s) => s
      | _ => "batch"
      end
  | None => "group:" ++ sb_id payload
  end.

Definition sample_config : Config :=
  {| warmupInterval := 300000; unhealthyThreshold := 3; subscriptionTTL := 3600000 |}.

Definition empty_state : CacheWarmerState :=
  {| subscriptions := []; warmups := ∅ |}.

Definition response (age : option Z) (bk : option string)
    (rs : option (list (Js.obj Js.value * Z))) : AdapterResponse :=
  {| maxAge := age;
     debug := Some {| batchKey := bk |};
     rs_data := Some {| results := rs |} |}.

Definition subscribe_A (age : option Z) : WarmupSubscribedPayload :=
  {| sb_id := "1";
     sb_data := Some [("symbol", Js.VStr "A")];
     sb_executeFn := execute_a;
     sb_result := Some (response age None None);
     sb_key := None;
     sb_parent := None;
     sb_batchKey := None;
     sb_childLastSeenById := None |}.

Definition at_time (t : Z) (a : Action) (state : CacheWarmerState) : Dispatch :=
  {| d_time := t; d_action := a; d_state := state |}.

Definition entry_A (dup : bool) : SubscriptionState :=
  {| origin := [("symbol", Js.VStr "A")];
     executeFn := execute_a;
     isDuplicate := dup;
     childLastSeenById := None |}.

Definition state_with_A (dup : bool) : CacheWarmerState :=
  {| subscriptions := [("A", entry_A dup)]; warmups := ∅ |}.

Definition state_failed (n : Z) : CacheWarmerState :=
  {| subscriptions := [("A", entry_A false)];
     warmups := {[ "A" := {| errorCount := n |} ]} |}.

Definition group_entry (symbols : list Js.value) : SubscriptionState :=
  {| origin := [("symbols", Js.VArr symbols)];
     executeFn := execute_a;
     isDuplicate := false;
     childLastSeenById := Some [("BTC", 0); ("ETH", 0)] |}.

Definition state_with_group (symbols : list Js.value) : CacheWarmerState :=
  {| subscriptions := [("group:1", group_entry symbols)]; warmups := ∅ |}.

Definition batch_execute (fn : Execute) : WarmupExecutePayload :=
  {| ex_id := "1";
     ex_data := [("symbols", Js.VArr [Js.VStr "BTC"; Js.VStr "ETH"])];
     ex_executeFn := fn;
     ex_result :=
       Some (response None (Some "symbols")
               (Some [([("symbol", Js.VStr "BTC")], 0); ([("symbol", Js.VStr "ETH")], 1)])) |}.

(** *** Reading the emitted actions *)

(** The [childLastSeenById] a parent action carries. *)
Definition action_childLastSeenById (a : Action) : option (Js.obj Z) :=
  match a with
  | warmupSubscribed p => sb_childLastSeenById p
  | warmupJoinGroup j => Some (jg_childLastSeenById j)
  | _ => None
  end.

Definition isRequested (a : Action) : bool :=
  match a with warmupRequested _ => true | _ => false end.

Definition isTimeoutResetOf (key : string) (a : Action) : bool :=
  match a with warmupSubscriptionTimeoutReset k => String.eqb k key | _ => false end.

(** When the races started by one key's subscribes, dispatched at [ts], are
    reset: at the time of the next subscribe, if it precedes the deadline. *)
Fixpoint renewals (ttl : Z) (ts : list Z) : list Z :=
  match ts with
  | [] => []
  | t :: rest =>
      match rest with
      | [] => []
      | t' :: _ =>
          if precedes t' (t + ttl) then t' :: renewals ttl rest
          else renewals ttl rest
      end
  end.

(** A payload that differs from [batch_execute] in its data only. *)
Definition batch_execute_other_data (fn : Execute) : WarmupExecutePayload :=
  {| ex_id := "1";
     ex_data := [("symbols", Js.VStr "LINK")];
     ex_executeFn := fn;
     ex_result :=
       Some (response None (Some "symbols")
               (Some [([("symbol", Js.VStr "BTC")], 0); ([("symbol", Js.VStr "ETH")], 1)])) |}.

(** A batched result that lists no sub-results. *)
Definition batch_execute_no_results : WarmupExecutePayload :=
  {| ex_id := "1";
     ex_data := [("symbols", Js.VStr "LINK")];
     ex_executeFn := execute_a;
     ex_result := Some (response None (Some "symbols") None) |}.

Definition single_execute : WarmupExecutePayload :=
  {| ex_id := "1";
     ex_data := [("symbol", Js.VStr "A")];
     ex_executeFn := execute_b;
     ex_result := Some (response (Some 1000) None None) |}.

Definition group_entry_without (field : string) : SubscriptionState :=
  {| origin := [(field, Js.VArr [Js.VStr "BTC"])];
     executeFn := execute_b;
     isDuplicate := false;
     childLastSeenById := Some [("BTC", 0)] |}.

(** ** Properties *)

(** *** executeHandler and the selector *)

Lemma subscribeBatch_without_batchKey now state payload :
  isBatchExecute payload = false ->
  subscribeBatch now state payload
  = Js.Throw (Js.Error "No batch key found, state invariant violated").
Proof.
  unfold isBatchExecute, subscribeBatch. intros ->. reflexivity.
Qed.

Lemma subscribeBatch_with_batchKey now state payload :
  isBatchExecute payload = true ->
  exists out, subscribeBatch now state payload = Js.Ok out.
Proof.
  unfold isBatchExecute, subscribeBatch. intros ->. simpl. eauto.
Qed.

(** C10: whatever the action and the state, [executeHandler] does not raise
    the missing-batch-key error: [partition] sends to the batch branch only
    payloads whose [result.debug.batchKey] is truthy, and the branch tests
    the same expression again. *)
Theorem executeHandler_never_missing_batchKey now state a :
  executeHandler now state a
  <> Js.Throw (Js.Error "No batch key found, state invariant violated").
Proof.
  destruct a as [payload| | | | | | | | |]; simpl; try discriminate.
  destruct (isBatchExecute payload) eqn:Hbatch; [|discriminate].
  destruct (subscribeBatch_with_batchKey now state payload Hbatch) as [out ->].
  discriminate.
Qed.

Lemma find_first_match {A} (f : A -> bool) (l : list A) :
  match List.find f l with
  | Some x => exists before after,
      l = before ++ x :: after /\ f x = true /\ Forall (fun y => f y = false) before
  | None => Forall (fun y => f y = false) l
  end.
Proof.
  induction l as [|y l IH]; simpl; [constructor|].
  destruct (f y) eqn:Hy.
  - exists [], l. repeat split; auto.
  - destruct (List.find f l) as [x|].
    + destruct IH as (before & after & -> & Hx & Hb).
      exists (y :: before), after. repeat split; auto.
    + constructor; auto.
Qed.

Lemma isBatchWarmerFor_true payload entry :
  isBatchWarmerFor payload entry = true <->
  is_Some (childLastSeenById (snd entry)) /\
  fn_toString (executeFn (snd entry)) = fn_toString (ex_executeFn payload).
Proof.
  unfold isBatchWarmerFor. rewrite andb_true_iff, String.eqb_eq.
  destruct (childLastSeenById (snd entry)); simpl; split; intros [H1 H2]; split; eauto;
    try discriminate.
  destruct H1 as [? H1]. discriminate.
Qed.

(** C4, amended: a group entry (one with [childLastSeenById]) is reused
    exactly when the source text of its executor, as [toString()] gives it,
    equals that of the request's executor; the first such entry in the
    registry's enumeration order gives the key. When there is none the key is
    the fingerprint of the request without its [data]. *)
Theorem selectBatchWarmerSubscriptionKey_by_source_text state payload :
  let same_text (entry : string * SubscriptionState) :=
    is_Some (childLastSeenById (snd entry)) /\
    fn_toString (executeFn (snd entry)) = fn_toString (ex_executeFn payload) in
  (exists before entry after,
      subscriptions state = before ++ entry :: after /\
      same_text entry /\
      Forall (fun e => ~ same_text e) before /\
      selectBatchWarmerSubscriptionKey state payload
      = {| existingKey := true; bw_key := fst entry |})
  \/ (Forall (fun e => ~ same_text e) (subscriptions state) /\
      selectBatchWarmerSubscriptionKey state payload
      = {| existingKey := false;
           bw_key := getSubscriptionKey (omit_data (spread payload)) |}).
Proof.
  intros same_text. unfold selectBatchWarmerSubscriptionKey.
  pose proof (find_first_match (isBatchWarmerFor payload) (subscriptions state)) as Hfind.
  assert (Hneg : forall l, Forall (fun y => isBatchWarmerFor payload y = false) l ->
                           Forall (fun e => ~ same_text e) l).
  { intros l Hl. induction Hl as [|e l He _ IH]; constructor; auto.
    intros Hs. apply isBatchWarmerFor_true in Hs. congruence. }
  destruct (List.find (isBatchWarmerFor payload) (subscriptions state)) as [entry|].
  - destruct Hfind as (before & after & Heq & Hentry & Hbefore).
    left. exists before, entry, after. repeat split; auto.
    + apply isBatchWarmerFor_true in Hentry. apply Hentry.
    + apply isBatchWarmerFor_true in Hentry. apply Hentry.
  - right. split; auto.
Qed.






(** *** warmupRequestHandler and the eviction rules *)

Lemma warmupRequestHandler_unknown_key state key :
  Js.get (subscriptions state) key = None ->
  warmupRequestHandler state (warmupRequested key)
  = Js.Throw (Js.TypeError "Cannot read properties of undefined (reading 'executeFn')").
Proof. simpl. intros ->. reflexivity. Qed.

Lemma unsubscribeOnBatchEmpty_unknown_parent state parent bk :
  Js.get (subscriptions state) parent = None ->
  unsubscribeOnBatchEmpty state (warmupLeaveGroup parent bk)
  = Js.Throw (Js.TypeError "Cannot read properties of undefined (reading 'origin')").
Proof. simpl. intros ->. reflexivity. Qed.

Lemma unsubscribeOnBatchEmpty_array state parent bk subscription items :
  Js.get (subscriptions state) parent = Some subscription ->
  Js.get_value (origin subscription) bk = Js.VArr items ->
  unsubscribeOnBatchEmpty state (warmupLeaveGroup parent bk)
  = Js.Ok (if decide (items = []) then [] else [warmupUnsubscribed parent]).
Proof.
  simpl. intros -> ->. simpl. destruct items; reflexivity.
Qed.

Lemma unsubscribeOnFailure_emits config state key err :
  unsubscribeOnFailure config state (warmupFailed key err) = [warmupUnsubscribed key]
  <-> match warmups state !! key with
      | Some w => errorCount w <> 0
      | None => unhealthyThreshold config <= 0
      end.
Proof.
  unfold unsubscribeOnFailure, isUnhealthy.
  destruct (warmups state !! key) as [w|]; simpl.
  - unfold Js.num_truthy. destruct (Z.eqb_spec (errorCount w) 0); simpl; split;
      intros; congruence.
  - rewrite Z.geb_leb. destruct (Z.leb_spec (unhealthyThreshold config) 0); split;
      intros; try reflexivity; try discriminate; lia.
Qed.

(** *** warmupSubscriber *)

Lemma cancelMatch_unsubscribed_only a :
  cancelMatch a = warmupUnsubscribed_match a.
Proof. reflexivity. Qed.

Lemma cancelSignal_app key l1 l2 :
  cancelSignal key (l1 ++ l2) = cancelSignal key l1 ++ cancelSignal key l2.
Proof.
  unfold cancelSignal. rewrite !List.filter_app, map_app. reflexivity.
Qed.

Lemma cancelSignal_skip key d later :
  cancelMatch (d_action d) = false ->
  cancelSignal key (d :: later) = cancelSignal key later.
Proof.
  unfold cancelSignal. simpl. intros ->. reflexivity.
Qed.

Lemma cancelSignal_unsubscribed key t state later :
  cancelSignal key (at_time t (warmupUnsubscribed key) state :: later)
  = t :: cancelSignal key later.
Proof.
  unfold cancelSignal. simpl. rewrite bool_decide_eq_true_2; reflexivity.
Qed.

Lemma warmup_skip config n x l1 d l2 :
  cancelMatch (d_action d) = false ->
  warmup config n x (l1 ++ d :: l2) = warmup config n x (l1 ++ l2).
Proof.
  intros Hd. unfold warmup.
  destruct (d_action x); try reflexivity.
  rewrite !cancelSignal_app, (cancelSignal_skip _ d l2 Hd). reflexivity.
Qed.

Lemma warmupSubscriber_skip config n d before after :
  cancelMatch (d_action d) = false ->
  (forall later, warmup config n d later = []) ->
  warmupSubscriber config n (before ++ d :: after)
  = warmupSubscriber config n (before ++ after).
Proof.
  intros Hd Hnone. unfold warmupSubscriber. f_equal.
  induction before as [|x before IH]; simpl.
  - rewrite Hnone. reflexivity.
  - rewrite IH, (warmup_skip _ _ _ _ _ _ Hd). reflexivity.
Qed.

Lemma take_while_Forall {A} (f : A -> bool) (l : list A) :
  Forall (fun x => f x = true) (take_while f l).
Proof.
  induction l as [|x l IH]; simpl; [constructor|].
  destruct (f x) eqn:Hx; constructor; auto.
Qed.

(** After the first matching unsubscribe, the timer of a subscription emits
    nothing more. *)
Lemma warmup_cut_at_unsubscribe config n d later key tc rest e :
  d_action d = warmupSubscribed key ->
  cancelSignal (subscriptionKey key) later = tc :: rest ->
  In e (warmup config n d later) ->
  precedes tc (fst e) = false.
Proof.
  intros Hd Hsig Hin. unfold warmup in Hin. rewrite Hd in Hin.
  destruct (startsWarmup _ _ _); [|destruct Hin].
  rewrite Hsig in Hin. simpl in Hin.
  pose proof (take_while_Forall
    (fun e0 : Z * Action => negb (precedes tc (fst e0)))
    (map (fun t => (t, warmupRequested (subscriptionKey key)))
         (timer (d_time d) 0 (warmupPeriod config key) n))) as Hall.
  rewrite List.Forall_forall in Hall. specialize (Hall e Hin).
  destruct (precedes tc (fst e)); [discriminate|reflexivity].
Qed.

(** A stop action, wherever it sits on the bus, changes nothing in what the
    scheduler emits. *)
Lemma warmupSubscriber_ignores_stop config n before t key state after :
  warmupSubscriber config n (before ++ at_time t (warmupStopped key) state :: after)
  = warmupSubscriber config n (before ++ after).
Proof. apply warmupSubscriber_skip; reflexivity. Qed.

(** C7: a subscribe whose key was already active, which the registry
    records by flagging the entry the scheduler reads as [isDuplicate], is a
    heartbeat only: it starts no timer, and the scheduler emits exactly what
    it would emit had the action not been dispatched, so no running timer is
    restarted or shifted. *)
Theorem duplicate_subscribe_is_heartbeat config n d payload entry :
  d_action d = warmupSubscribed payload ->
  Js.get (subscriptions (d_state d)) (subscriptionKey payload) = Some entry ->
  isDuplicate entry = true ->
  (forall later, warmup config n d later = []) /\
  (forall before after,
      warmupSubscriber config n (before ++ d :: after)
      = warmupSubscriber config n (before ++ after)).
Proof.
  intros Hd Hentry Hdup.
  assert (Hnone : forall later, warmup config n d later = []).
  { intros later. unfold warmup, startsWarmup. rewrite Hd, Hentry. simpl.
    rewrite Hdup. destruct (Js.opt_truthy _ (sb_parent payload)); reflexivity. }
  split; [exact Hnone|].
  intros before after. apply warmupSubscriber_skip; [|exact Hnone].
  rewrite Hd. reflexivity.
Qed.

Lemma timerInterval_in_range period :
  1 <= period <= TIMEOUT_MAX -> timerInterval period = period.
Proof.
  unfold timerInterval. intros [Hlow Hhigh].
  destruct (Z.ltb_spec period 1); [lia|].
  destruct (Z.ltb_spec TIMEOUT_MAX period); [lia|reflexivity].
Qed.

Lemma timerInterval_positive period : 1 <= timerInterval period.
Proof.
  unfold timerInterval.
  destruct (Z.ltb_spec period 1); simpl; [lia|].
  destruct (Z.ltb_spec TIMEOUT_MAX period); lia.
Qed.

(** C8, amended: the timer of a root subscribe that passes the filter has
    due time zero and, as its period, the payload's [result.maxAge] whenever
    that is present and not zero (a negative one included), the configured
    [warmupInterval] otherwise. It ticks at the time of the subscribe and
    then at every period, where a period below 1 or above [2^31 - 1] counts
    as 1; unless a cancel signal is already there, the first requested
    action comes at the time of the subscribe itself. *)
Theorem warmup_timer_period config n d later payload :
  d_action d = warmupSubscribed payload ->
  startsWarmup payload (subscriptionKey payload) (d_state d) = true ->
  let key := subscriptionKey payload in
  let period :=
    match Js.chain (sb_result payload) maxAge with
    | Some age => if age =? 0 then warmupInterval config else age
    | None => warmupInterval config
    end in
  let interval :=
    if (period <? 1) || (2147483647 <? period) then 1 else period in
  warmupPeriod config payload = period /\
  warmup config n d later
  = takeUntil
      (map (fun k => (d_time d + Z.of_nat k * interval, warmupRequested key))
           (seq 0%nat n))
      (cancelSignal key later) /\
  (cancelSignal key later = [] ->
   hd_error (warmup config (S n) d later) = Some (d_time d, warmupRequested key)).
Proof.
  intros Hd Hstart key period interval.
  assert (Hperiod : warmupPeriod config payload = period).
  { unfold warmupPeriod, period, Js.or_default, Js.or, Js.num_truthy.
    destruct (Js.chain (sb_result payload) maxAge) as [age|]; [|reflexivity].
    destruct (age =? 0); reflexivity. }
  split; [exact Hperiod|].
  unfold warmup, key. rewrite Hd. cbv zeta. rewrite Hstart, Hperiod.
  unfold timer. rewrite map_map.
  change (timerInterval period) with interval.
  split.
  - f_equal. apply map_ext. intros k. f_equal. lia.
  - intros ->. simpl. do 2 f_equal. lia.
Qed.

(** *** The subscription time-to-live *)

Lemma find_hd_filter {A} (f : A -> bool) (l : list A) :
  List.find f l = hd_error (List.filter f l).
Proof.
  induction l as [|x l IH]; simpl; [reflexivity|].
  destruct (f x); [reflexivity|exact IH].
Qed.

Lemma filter_Permutation_bool {A} (f : A -> bool) (l l' : list A) :
  l ≡ₚ l' -> List.filter f l ≡ₚ List.filter f l'.
Proof.
  induction 1 as [|x l l' _ IH|x y l|l l' l'' _ IH1 _ IH2]; simpl.
  - constructor.
  - destruct (f x); [constructor|]; exact IH.
  - destruct (f x), (f y); try reflexivity. apply perm_swap.
  - etransitivity; eassumption.
Qed.

Lemma mergeMap_hot_cons {A B} (project : A -> list A -> list B) d later :
  mergeMap_hot project (d :: later) = project d later ++ mergeMap_hot project later.
Proof. reflexivity. Qed.

Lemma timeoutRace_other_key config key s later :
  sameKey key s = false ->
  List.filter (fun e => isUnsubscribedOf key (snd e)) (timeoutRace config s later) = [].
Proof.
  unfold sameKey. intros Hne. unfold timeoutRace, race.
  assert (Hsym : String.eqb (snd (snd s)) key = false)
    by (rewrite String.eqb_sym; exact Hne).
  destruct (List.find _ later) as [r|]; simpl.
  - destruct (precedes _ _); simpl; [reflexivity|]. rewrite Hsym. reflexivity.
  - rewrite Hsym. reflexivity.
Qed.

Lemma timeoutRace_same_key config key s later :
  sameKey key s = true ->
  timeoutRace config s later
  = [race ((fun r => (fst r, warmupSubscriptionTimeoutReset key))
             <$> hd_error (List.filter (sameKey key) later))
          (fst s + delayFor (subscriptionTTL config), warmupUnsubscribed key)].
Proof.
  unfold sameKey. intros Hs. apply String.eqb_eq in Hs.
  unfold timeoutRace. rewrite <- Hs, find_hd_filter. reflexivity.
Qed.

Lemma precedes_lt t_bus t_timer :
  t_bus < t_timer -> precedes t_bus t_timer = true.
Proof.
  unfold precedes. intros Hlt.
  destruct bus_first; [apply Z.leb_le|apply Z.ltb_lt]; lia.
Qed.

(** The unsubscribes the time-to-live rule emits for a key, before merging. *)
Lemma timeouts_expirations config key ks :
  List.filter (fun e => isUnsubscribedOf key (snd e))
    (mergeMap_hot (timeoutRace config) ks)
  = map (fun t => (t, warmupUnsubscribed key))
      (expirations (delayFor (subscriptionTTL config))
         (map fst (List.filter (sameKey key) ks))).
Proof.
  induction ks as [|s ks IH]; [reflexivity|].
  rewrite mergeMap_hot_cons, List.filter_app, IH. clear IH.
  cbn [List.filter]. destruct (sameKey key s) eqn:Hs.
  - rewrite (timeoutRace_same_key _ _ _ _ Hs).
    destruct (List.filter (sameKey key) ks) as [|r rs]; simpl.
    + rewrite String.eqb_refl. reflexivity.
    + destruct (precedes (fst r) (fst s + delayFor (subscriptionTTL config))); simpl;
        [|rewrite String.eqb_refl]; reflexivity.
  - rewrite (timeoutRace_other_key _ _ _ _ Hs). reflexivity.
Qed.

Lemma unsubscribeOnTimeout_expirations config key bus :
  List.filter (fun e => isUnsubscribedOf key (snd e)) (unsubscribeOnTimeout config bus)
  ≡ₚ map (fun t => (t, warmupUnsubscribed key))
       (expirations (delayFor (subscriptionTTL config)) (subscribeTimes key bus)).
Proof.
  unfold unsubscribeOnTimeout, merge_by_time, subscribeTimes.
  rewrite <- timeouts_expirations.
  apply filter_Permutation_bool, merge_sort_Permutation.
Qed.

Lemma expirations_renewed ttl ts t_last :
  gaps_below ttl (ts ++ [t_last]) ->
  expirations ttl (ts ++ [t_last]) = [t_last + ttl].
Proof.
  induction ts as [|t ts IH]; [reflexivity|].
  intros Hgaps. change ((t :: ts) ++ [t_last]) with (t :: (ts ++ [t_last])) in *.
  destruct (ts ++ [t_last]) as [|t' rest] eqn:Hrest.
  - destruct ts; discriminate.
  - destruct Hgaps as [Hnext Hgaps]. cbn [expirations].
    rewrite (precedes_lt _ _ Hnext). apply IH, Hgaps.
Qed.

Lemma delayFor_nonneg ttl : 0 <= ttl -> delayFor ttl = ttl.
Proof. unfold delayFor. apply Z.abs_eq. Qed.

(** For the fingerprint of a payload: when every subscribe with that
    fingerprint comes less than [subscriptionTTL] after the one before it,
    the time-to-live rule emits an unsubscribe for the fingerprint exactly
    once, and [subscriptionTTL] after the last of them: every earlier race
    is won by the next subscribe, which resets it. *)
Lemma unsubscribeOnTimeout_once_after_last config bus key ts t_last :
  0 <= subscriptionTTL config ->
  subscribeTimes key bus = ts ++ [t_last] ->
  gaps_below (subscriptionTTL config) (ts ++ [t_last]) ->
  List.filter (fun e => isUnsubscribedOf key (snd e)) (unsubscribeOnTimeout config bus)
  = [(t_last + subscriptionTTL config, warmupUnsubscribed key)].
Proof.
  intros Httl Htimes Hgaps. apply Permutation_singleton_r.
  rewrite unsubscribeOnTimeout_expirations, Htimes, (delayFor_nonneg _ Httl),
    (expirations_renewed _ _ _ Hgaps).
  reflexivity.
Qed.

(** ** Further properties of the epics *)

(** *** Plain objects *)

Lemma get_cons {A} (k' : string) (v' : A) (o : Js.obj A) (k : string) :
  Js.get ((k', v') :: o) k = if String.eqb k' k then Some v' else Js.get o k.
Proof. unfold Js.get. simpl. destruct (String.eqb k' k); reflexivity. Qed.

Lemma get_app {A} (o1 o2 : Js.obj A) (k : string) :
  Js.get (o1 ++ o2) k
  = match Js.get o1 k with Some v => Some v | None => Js.get o2 k end.
Proof.
  induction o1 as [|[k' v'] o1 IH]; [reflexivity|].
  change (((k', v') :: o1) ++ o2) with ((k', v') :: (o1 ++ o2)).
  rewrite !get_cons. destruct (String.eqb k' k); [reflexivity|exact IH].
Qed.

Lemma get_set {A} (o : Js.obj A) (k : string) (v : A) (k' : string) :
  Js.get (Js.set o k v) k' = if String.eqb k k' then Some v else Js.get o k'.
Proof.
  induction o as [|[k0 v0] o IH]; simpl.
  - rewrite get_cons. reflexivity.
  - destruct (String.eqb k0 k) eqn:Hk0; rewrite !get_cons.
    + apply String.eqb_eq in Hk0. subst k0.
      destruct (String.eqb k k'); reflexivity.
    + rewrite IH. destruct (String.eqb k0 k') eqn:Hk0'; [|reflexivity].
      apply String.eqb_eq in Hk0'. subst k0. rewrite String.eqb_sym, Hk0. reflexivity.
Qed.

Lemma get_Some_keys {A} (o : Js.obj A) (k : string) :
  is_Some (Js.get o k) <-> In k (Js.keys o).
Proof.
  induction o as [|[k' v'] o IH]; simpl.
  - split; [intros [? H]; discriminate|intros []].
  - rewrite get_cons. destruct (String.eqb_spec k' k) as [->|Hne].
    + split; eauto.
    + rewrite IH. split; [auto|intros [?|?]; [congruence|assumption]].
Qed.

Lemma In_keys_set {A} (o : Js.obj A) (k : string) (v : A) (k' : string) :
  In k' (Js.keys (Js.set o k v)) <-> k = k' \/ In k' (Js.keys o).
Proof.
  rewrite <- !get_Some_keys, get_set.
  destruct (String.eqb_spec k k') as [->|Hne].
  - split; eauto.
  - split; [auto|intros [?|?]; [congruence|assumption]].
Qed.

Lemma NoDup_keys_set {A} (o : Js.obj A) (k : string) (v : A) :
  List.NoDup (Js.keys o) -> List.NoDup (Js.keys (Js.set o k v)).
Proof.
  induction o as [|[k0 v0] o IH]; simpl; intros Hnd.
  - repeat constructor. intros [].
  - inversion Hnd as [|? ? Hnotin Hnd']; subst.
    destruct (String.eqb_spec k0 k) as [->|Hne]; simpl.
    + constructor; assumption.
    + constructor; [|apply IH, Hnd'].
      change (map fst (Js.set o k v)) with (Js.keys (Js.set o k v)).
      rewrite In_keys_set. intros [?|?]; [congruence|contradiction].
Qed.

Lemma Forall_values_set {A} (P : A -> Prop) (o : Js.obj A) (k : string) (v : A) :
  P v -> Forall (fun kv => P (snd kv)) o ->
  Forall (fun kv => P (snd kv)) (Js.set o k v).
Proof.
  intros Hv. induction 1 as [|[k0 v0] o H0 Ho IH]; simpl.
  - repeat constructor. exact Hv.
  - destruct (String.eqb k0 k); constructor; auto.
Qed.

Lemma fold_set_get {A} (es : list (string * A)) (o : Js.obj A) (k : string) :
  Js.get (fold_left (fun o kv => Js.set o (fst kv) (snd kv)) es o) k
  = match Js.get (rev es) k with Some v => Some v | None => Js.get o k end.
Proof.
  revert o. induction es as [|[k0 v0] es IH]; intros o; simpl; [reflexivity|].
  rewrite IH, get_app, get_set, get_cons. simpl.
  destruct (Js.get (rev es) k); [reflexivity|].
  destruct (String.eqb k0 k); reflexivity.
Qed.

Lemma fold_set_NoDup {A} (es : list (string * A)) (o : Js.obj A) :
  List.NoDup (Js.keys o) ->
  List.NoDup (Js.keys (fold_left (fun o kv => Js.set o (fst kv) (snd kv)) es o)).
Proof.
  revert o. induction es as [|e es IH]; intros o Hnd; simpl; [exact Hnd|].
  apply IH, NoDup_keys_set, Hnd.
Qed.

Lemma fold_set_values {A} (P : A -> Prop) (es : list (string * A)) (o : Js.obj A) :
  Forall (fun kv => P (snd kv)) es -> Forall (fun kv => P (snd kv)) o ->
  Forall (fun kv => P (snd kv))
    (fold_left (fun o kv => Js.set o (fst kv) (snd kv)) es o).
Proof.
  intros Hes. revert o. induction Hes as [|e es He _ IH]; intros o Ho; simpl; [exact Ho|].
  apply IH, Forall_values_set; assumption.
Qed.

(** [Object.fromEntries] then a lookup: the last entry under the key. *)
Lemma fromEntries_get {A} (es : list (string * A)) (k : string) :
  Js.get (Js.fromEntries es) k = Js.get (rev es) k.
Proof.
  unfold Js.fromEntries. rewrite fold_set_get.
  destruct (Js.get (rev es) k); reflexivity.
Qed.

Lemma fromEntries_keys {A} (es : list (string * A)) (k : string) :
  In k (Js.keys (Js.fromEntries es)) <-> In k (map fst es).
Proof.
  rewrite <- get_Some_keys, fromEntries_get, get_Some_keys.
  unfold Js.keys. rewrite map_rev, <- List.in_rev. reflexivity.
Qed.


(** *** executeHandler, further *)

Lemma executeHandler_batch now state payload :
  isBatchExecute payload = true ->
  let group := selectBatchWarmerSubscriptionKey state payload in
  let children :=
    createChildSubscriptionActions payload (bw_key group) (result_batchKey payload) in
  let seen :=
    Js.fromEntries
      (imap (fun i p => (getSubscriptionKey p, now i))
            (omap subscribed_payload children)) in
  executeHandler now state (warmupExecute payload)
  = Js.Ok (children
           ++ [createParentSubscriptionAction (default "" (result_batchKey payload))
                 group seen payload]).
Proof.
  intros Hbatch. simpl. rewrite Hbatch. unfold subscribeBatch.
  unfold isBatchExecute in Hbatch. rewrite Hbatch. reflexivity.
Qed.

Lemma children_are_subscribes payload group bk c :
  In c (createChildSubscriptionActions payload group bk) ->
  exists p, c = warmupSubscribed p /\ sb_parent p = Some group /\ sb_batchKey p = bk /\
            sb_key p = None /\ sb_executeFn p = ex_executeFn payload.
Proof.
  unfold createChildSubscriptionActions.
  destruct (result_results payload) as [rs|].
  - rewrite List.in_map_iff. intros (r & <- & _). eexists. repeat split.
  - intros [<-|[]]. eexists. repeat split.
Qed.

Lemma createParent_childLastSeenById bk group seen payload :
  action_childLastSeenById (createParentSubscriptionAction bk group seen payload)
  = Some seen.
Proof.
  unfold createParentSubscriptionAction.
  destruct (existingKey group); [reflexivity|].
  destruct (negb _); reflexivity.
Qed.

Lemma subscribed_payload_of_subscribes (ps : list WarmupSubscribedPayload) :
  omap subscribed_payload (map warmupSubscribed ps) = ps.
Proof.
  induction ps as [|p ps IH]; [reflexivity|].
  change (omap subscribed_payload (map warmupSubscribed (p :: ps)))
    with (p :: omap subscribed_payload (map warmupSubscribed ps)).
  rewrite IH. reflexivity.
Qed.

Lemma children_payloads payload group bk :
  exists ps, createChildSubscriptionActions payload group bk = map warmupSubscribed ps.
Proof.
  unfold createChildSubscriptionActions.
  destruct (result_results payload) as [rs|].
  - eexists (map _ rs). rewrite map_map. reflexivity.
  - eexists [_]. reflexivity.
Qed.

Lemma keys_of_stamped (now : nat -> Z) (ps : list WarmupSubscribedPayload) :
  map fst (imap (fun i p => (getSubscriptionKey p, now i)) ps)
  = map getSubscriptionKey ps.
Proof.
  revert now. induction ps as [|p ps IH]; intros now; [reflexivity|].
  rewrite imap_cons. simpl. f_equal. apply (IH (fun i => now (S i))).
Qed.

Lemma fingerprints_of_subscribes (now : nat -> Z) (ps : list WarmupSubscribedPayload)
    (k : string) :
  In k (map fst (imap (fun i p => (getSubscriptionKey p, now i)) ps))
  <-> exists p, In (warmupSubscribed p) (map warmupSubscribed ps) /\
                getSubscriptionKey p = k.
Proof.
  rewrite keys_of_stamped, List.in_map_iff. split.
  - intros (p & Hk & Hin). exists p. split; [apply List.in_map, Hin|exact Hk].
  - intros (p & Hin & Hk). exists p. split; [exact Hk|].
    apply List.in_map_iff in Hin as (q & Hq & Hin). congruence.
Qed.

Lemma get_In {A} (o : Js.obj A) (k : string) (v : A) :
  Js.get o k = Some v -> In (k, v) o.
Proof.
  induction o as [|[k' v'] o IH]; [discriminate|].
  rewrite get_cons. destruct (String.eqb_spec k' k) as [->|Hne].
  - intros H. injection H as ->. left. reflexivity.
  - intros H. right. apply IH, H.
Qed.

(** In a list of entries, the lookup after [Object.fromEntries] finds the
    last entry under the key. *)
Lemma get_rev_last {A} (es : list (string * A)) (k : string) (v : A) :
  Js.get (rev es) k = Some v ->
  exists i, es !! i = Some (k, v) /\
            forall j kv, (i < j)%nat -> es !! j = Some kv -> fst kv <> k.
Proof.
  induction es as [|[k' v'] es IH] using rev_ind; [discriminate|].
  rewrite rev_app_distr. simpl. rewrite get_cons.
  destruct (String.eqb_spec k' k) as [->|Hne].
  - intros H. injection H as ->. exists (length es). split.
    + rewrite lookup_app_r, Nat.sub_diag by lia. reflexivity.
    + intros j kv Hj Hlookup. apply lookup_lt_Some in Hlookup.
      rewrite length_app in Hlookup. simpl in Hlookup. lia.
  - intros H. destruct (IH H) as (i & Hi & Hlast). exists i. split.
    + rewrite lookup_app_l; [exact Hi|]. apply lookup_lt_Some in Hi. exact Hi.
    + intros j kv Hj Hlookup.
      destruct (decide (j < length es)%nat) as [Hlt|Hge].
      * rewrite lookup_app_l in Hlookup by exact Hlt. eapply Hlast; eassumption.
      * rewrite lookup_app_r in Hlookup by lia.
        destruct (j - length es)%nat; simpl in Hlookup; [|discriminate].
        injection Hlookup as <-. exact Hne.
Qed.

(** An execute action without a truthy batch marker (no result, no debug, no
    batch key, or the empty string) yields one subscribe that carries the
    request unchanged, with no key and no parent; the scheduler then starts
    a timer under the fingerprint of that payload unless the registry flags
    the entry under it as a duplicate. *)
Theorem individual_execute_subscribes_root now state payload :
  isBatchExecute payload = false ->
  exists p,
    executeHandler now state (warmupExecute payload) = Js.Ok [warmupSubscribed p] /\
    sb_id p = ex_id payload /\ sb_data p = Some (ex_data payload) /\
    sb_executeFn p = ex_executeFn payload /\ sb_result p = ex_result payload /\
    sb_key p = None /\ sb_parent p = None /\
    subscriptionKey p = getSubscriptionKey p /\
    forall seen,
      startsWarmup p (subscriptionKey p) seen
      = negb (Js.opt_truthy isDuplicate
                (Js.get (subscriptions seen) (getSubscriptionKey p))).
Proof.
  intros Hsingle. exists (spread payload). simpl. rewrite Hsingle.
  repeat split.
Qed.

(** A batched result that lists no sub-results gives one child subscribe
    that carries the request's own data, then the parent action, whose
    [childLastSeenById] holds that one child. *)
Theorem batch_without_results_single_child now state payload bk :
  result_batchKey payload = Some bk ->
  Js.str_truthy bk = true ->
  result_results payload = None ->
  let group := selectBatchWarmerSubscriptionKey state payload in
  exists child parentAction,
    executeHandler now state (warmupExecute payload)
    = Js.Ok [warmupSubscribed child; parentAction] /\
    sb_data child = Some (ex_data payload) /\
    sb_parent child = Some (bw_key group) /\
    sb_batchKey child = Some bk /\
    action_childLastSeenById parentAction
    = Some [(getSubscriptionKey child, now 0%nat)].
Proof.
  intros Hbk Htruthy Hrs group.
  assert (Hbatch : isBatchExecute payload = true)
    by (unfold isBatchExecute; rewrite Hbk; exact Htruthy).
  rewrite (executeHandler_batch now state payload Hbatch).
  unfold createChildSubscriptionActions. rewrite Hrs, Hbk. fold group.
  eexists _, _. split; [reflexivity|].
  repeat split. apply createParent_childLastSeenById.
Qed.

(** The [childLastSeenById] of the parent action of a batch lists exactly
    the fingerprints of the child subscribes emitted with it, each once; the
    value under a fingerprint is the reading of [Date.now()] taken for the
    last child with that fingerprint (the clock is read once per child). *)
Theorem batch_childLastSeenById_lists_children now state payload :
  isBatchExecute payload = true ->
  exists children parentAction seen,
    executeHandler now state (warmupExecute payload)
    = Js.Ok (children ++ [parentAction]) /\
    action_childLastSeenById parentAction = Some seen /\
    List.NoDup (Js.keys seen) /\
    (forall k, In k (Js.keys seen) <->
               exists p, In (warmupSubscribed p) children /\ getSubscriptionKey p = k) /\
    forall k v, Js.get seen k = Some v ->
      exists i p,
        children !! i = Some (warmupSubscribed p) /\
        getSubscriptionKey p = k /\ v = now i /\
        forall j q, (i < j)%nat -> children !! j = Some (warmupSubscribed q) ->
                    getSubscriptionKey q <> k.
Proof.
  intros Hbatch. rewrite (executeHandler_batch now state payload Hbatch).
  destruct (children_payloads payload
              (bw_key (selectBatchWarmerSubscriptionKey state payload))
              (result_batchKey payload)) as [ps ->].
  rewrite subscribed_payload_of_subscribes.
  eexists _, _, _. split; [reflexivity|].
  split; [apply createParent_childLastSeenById|].
  split; [apply fold_set_NoDup; constructor|].
  split.
  - intros k. rewrite fromEntries_keys. apply fingerprints_of_subscribes.
  - intros k v Hget. rewrite fromEntries_get in Hget.
    apply get_rev_last in Hget as (i & Hi & Hlast).
    rewrite list_lookup_imap in Hi.
    destruct (ps !! i) as [p|] eqn:Hp; [|discriminate].
    simpl in Hi. injection Hi as Hk Hv.
    exists i, p. rewrite list_lookup_fmap, Hp. repeat split; auto.
    intros j q Hj Hq Hsame. rewrite list_lookup_fmap in Hq.
    destruct (ps !! j) as [q'|] eqn:Hq'; [|discriminate].
    simpl in Hq. injection Hq as ->.
    apply (Hlast j (getSubscriptionKey q, now j) Hj); [|exact Hsame].
    rewrite list_lookup_imap, Hq'. reflexivity.
Qed.

(** When no group exists yet, the parent subscribe has an array under the
    batch key: the request's own when it is one, else the request's value
    wrapped in a one-element array; every other field of the data is the
    request's. *)
Theorem new_group_data_is_batch_shaped now state payload bk :
  result_batchKey payload = Some bk ->
  Js.str_truthy bk = true ->
  existingKey (selectBatchWarmerSubscriptionKey state payload) = false ->
  exists children p data,
    executeHandler now state (warmupExecute payload)
    = Js.Ok (children ++ [warmupSubscribed p]) /\
    sb_parent p = None /\
    sb_key p = Some (bw_key (selectBatchWarmerSubscriptionKey state payload)) /\
    sb_data p = Some data /\
    Js.isArray (Js.get_value data bk) = true /\
    (forall k, k <> bk -> Js.get data k = Js.get (ex_data payload) k) /\
    (if Js.isArray (Js.get_value (ex_data payload) bk)
     then data = ex_data payload
     else Js.get_value data bk = Js.VArr [Js.get_value (ex_data payload) bk]).
Proof.
  intros Hbk Htruthy Hnew.
  assert (Hbatch : isBatchExecute payload = true)
    by (unfold isBatchExecute; rewrite Hbk; exact Htruthy).
  rewrite (executeHandler_batch now state payload Hbatch).
  unfold createParentSubscriptionAction. rewrite Hnew, Hbk. simpl.
  destruct (Js.isArray (Js.get_value (ex_data payload) bk)) eqn:Harr; simpl.
  - eexists _, _, _. split; [reflexivity|]. repeat split. exact Harr.
  - eexists _, _, _. split; [reflexivity|]. repeat split.
    + unfold Js.get_value. rewrite get_set, String.eqb_refl. reflexivity.
    + intros k Hk. rewrite get_set.
      destruct (String.eqb_spec bk k); [congruence|reflexivity].
    + unfold Js.get_value at 1. rewrite get_set, String.eqb_refl. reflexivity.
Qed.

(** The group key does not depend on the request's data: two payloads that
    differ in their data only resolve to the same key, in any registry. *)
Theorem group_key_ignores_data state payload1 payload2 :
  ex_id payload1 = ex_id payload2 ->
  ex_executeFn payload1 = ex_executeFn payload2 ->
  ex_result payload1 = ex_result payload2 ->
  selectBatchWarmerSubscriptionKey state payload1
  = selectBatchWarmerSubscriptionKey state payload2.
Proof.
  intros Hid Hfn Hresult. unfold selectBatchWarmerSubscriptionKey.
  assert (Hsame : isBatchWarmerFor payload1 = isBatchWarmerFor payload2)
    by (unfold isBatchWarmerFor; rewrite Hfn; reflexivity).
  rewrite Hsame.
  destruct (List.find _ _); [reflexivity|].
  unfold omit_data, spread. simpl. rewrite Hid, Hfn, Hresult. reflexivity.
Qed.

(** The child subscribes of a batch never start a timer, whatever the
    registry holds, as long as the group key is not the empty string; when
    the batch joins an existing group the parent action starts none either. *)
Theorem batch_children_start_no_timer now state payload children parentAction :
  isBatchExecute payload = true ->
  Js.str_truthy (bw_key (selectBatchWarmerSubscriptionKey state payload)) = true ->
  executeHandler now state (warmupExecute payload) = Js.Ok (children ++ [parentAction]) ->
  (forall c config n t seen later,
      In c children -> warmup config n (at_time t c seen) later = []) /\
  (existingKey (selectBatchWarmerSubscriptionKey state payload) = true ->
   forall config n t seen later,
     warmup config n (at_time t parentAction seen) later = []).
Proof.
  intros Hbatch Hkey Hout.
  rewrite (executeHandler_batch now state payload Hbatch) in Hout.
  injection Hout as Hout. apply app_inj_tail in Hout as [<- <-].
  split.
  - intros c config n t seen later Hin.
    apply children_are_subscribes in Hin as (p & -> & Hparent & _).
    unfold warmup, startsWarmup. simpl. rewrite Hparent. simpl. rewrite Hkey.
    reflexivity.
  - intros Hjoin config n t seen later.
    unfold createParentSubscriptionAction. rewrite Hjoin. reflexivity.
Qed.

(** A parent subscribe that creates a group makes [stopOnBatch$] emit a
    stop for the fingerprint of every child subscribed with it, and for
    nothing else; joining an existing group emits no stop. *)
Theorem new_group_stops_its_children now state payload children parentAction :
  isBatchExecute payload = true ->
  executeHandler now state (warmupExecute payload) = Js.Ok (children ++ [parentAction]) ->
  (existingKey (selectBatchWarmerSubscriptionKey state payload) = false ->
   forall a, In a (stopOnBatch parentAction) <->
             exists p, In (warmupSubscribed p) children /\
                       a = warmupStopped (getSubscriptionKey p)) /\
  (existingKey (selectBatchWarmerSubscriptionKey state payload) = true ->
   stopOnBatch parentAction = []).
Proof.
  intros Hbatch Hout.
  rewrite (executeHandler_batch now state payload Hbatch) in Hout.
  destruct (children_payloads payload
              (bw_key (selectBatchWarmerSubscriptionKey state payload))
              (result_batchKey payload)) as [ps Hps].
  rewrite Hps, subscribed_payload_of_subscribes in Hout.
  injection Hout as Hout. apply app_inj_tail in Hout as [<- <-].
  split.
  - intros Hnew a.
    assert (Hstops : forall seen,
      stopOnBatch (createParentSubscriptionAction
                     (default "" (result_batchKey payload))
                     (selectBatchWarmerSubscriptionKey state payload) seen payload)
      = map warmupStopped (Js.keys seen)).
    { intros seen. unfold createParentSubscriptionAction. rewrite Hnew.
      destruct (negb _); reflexivity. }
    rewrite Hstops, List.in_map_iff. split.
    + intros (k & <- & Hk). apply fromEntries_keys, fingerprints_of_subscribes in Hk.
      destruct Hk as (p & Hin & <-). exists p. auto.
    + intros (p & Hin & ->). exists (getSubscriptionKey p). split; [reflexivity|].
      apply fromEntries_keys, fingerprints_of_subscribes. exists p. auto.
  - intros Hjoin. unfold createParentSubscriptionAction. rewrite Hjoin. reflexivity.
Qed.


(** *** warmupSubscriber, further *)

Lemma In_mergeMap_hot {A B} (project : A -> list A -> list B) (bus : list A) (x : B) :
  In x (mergeMap_hot project bus) <->
  exists before d later, bus = before ++ d :: later /\ In x (project d later).
Proof.
  induction bus as [|d bus IH].
  - split; [intros []|]. intros (before & d & later & Heq & _).
    destruct before; discriminate.
  - rewrite mergeMap_hot_cons, List.in_app_iff, IH. split.
    + intros [Hin|(before & d' & later & -> & Hin)].
      * exists [], d, bus. auto.
      * exists (d :: before), d', later. auto.
    + intros (before & d' & later & Heq & Hin).
      destruct before as [|d0 before]; simpl in Heq; injection Heq as <- ->.
      * left. exact Hin.
      * right. exists before, d', later. auto.
Qed.

Lemma In_merge_by_time {A} (s : Stream A) (x : Z * A) :
  In x (merge_by_time s) <-> In x s.
Proof.
  unfold merge_by_time. split; apply Permutation_in.
  - apply merge_sort_Permutation.
  - symmetry. apply merge_sort_Permutation.
Qed.

Lemma In_take_while {A} (f : A -> bool) (l : list A) (x : A) :
  In x (take_while f l) -> In x l /\ f x = true.
Proof.
  induction l as [|y l IH]; simpl; [intros []|].
  destruct (f y) eqn:Hy; [|intros []].
  intros [<-|Hin]; [auto|]. destruct (IH Hin). auto.
Qed.

Lemma In_takeUntil {A} (source : Stream A) (notifier : list Z) (x : Z * A) :
  In x (takeUntil source notifier) -> In x source.
Proof.
  destruct notifier as [|t notifier]; simpl; [auto|].
  intros Hin. apply In_take_while in Hin. apply Hin.
Qed.

(** The scheduler emits requested actions only, each a tick of the timer of
    a parent-less subscribe on the bus: for the key of that subscribe, at
    the subscribe's time plus a multiple of its period, where a period below
    1 or above [2^31 - 1] counts as 1. *)
Theorem warmupSubscriber_emits_ticks_of_roots config n bus e :
  In e (warmupSubscriber config n bus) ->
  exists d payload k,
    In d bus /\ d_action d = warmupSubscribed payload /\
    Js.opt_truthy Js.str_truthy (sb_parent payload) = false /\
    snd e = warmupRequested (subscriptionKey payload) /\
    (k < n)%nat /\
    let period := warmupPeriod config payload in
    fst e = d_time d
            + Z.of_nat k * (if (period <? 1) || (2147483647 <? period)
                            then 1 else period).
Proof.
  unfold warmupSubscriber. rewrite In_merge_by_time, In_mergeMap_hot.
  intros (before & d & later & -> & Hin). unfold warmup in Hin.
  destruct (d_action d) as [|payload| | | | | | | |] eqn:Hd; try destruct Hin.
  unfold startsWarmup in Hin.
  destruct (Js.opt_truthy Js.str_truthy (sb_parent payload)) eqn:Hparent; [destruct Hin|].
  destruct (negb _); [|destruct Hin].
  apply In_takeUntil in Hin. unfold timer in Hin. rewrite map_map in Hin.
  apply List.in_map_iff in Hin as (k & <- & Hk). apply List.in_seq in Hk.
  exists d, payload, k. repeat split; auto.
  - apply List.in_or_app. right. left. reflexivity.
  - lia.
  - simpl. change (timerInterval (warmupPeriod config payload))
      with (if (warmupPeriod config payload <? 1)
               || (2147483647 <? warmupPeriod config payload)
            then 1 else warmupPeriod config payload).
    lia.
Qed.

Lemma cancelSignal_other_key key key' t state later :
  key <> key' ->
  cancelSignal key (at_time t (warmupUnsubscribed key') state :: later)
  = cancelSignal key later.
Proof.
  intros Hne. unfold cancelSignal. simpl.
  rewrite bool_decide_eq_false_2; [reflexivity|congruence].
Qed.

(** An unsubscribe touches only the timers of its own key: where no earlier
    subscribe has that key, the scheduler emits what it would emit without
    the unsubscribe; in particular an unsubscribe that comes before the
    subscribe does not hold the timer back. *)
Theorem unsubscribe_leaves_other_timers config n before t key state after :
  (forall d payload, In d before -> d_action d = warmupSubscribed payload ->
                     subscriptionKey payload <> key) ->
  warmupSubscriber config n (before ++ at_time t (warmupUnsubscribed key) state :: after)
  = warmupSubscriber config n (before ++ after).
Proof.
  intros Hother. unfold warmupSubscriber. f_equal.
  induction before as [|x before IH]; [reflexivity|].
  change ((x :: before) ++ ?l) with (x :: (before ++ l)).
  rewrite !mergeMap_hot_cons, IH by (intros; eapply Hother; [right|]; eassumption).
  f_equal. unfold warmup.
  destruct (d_action x) as [|payload| | | | | | | |] eqn:Hx; try reflexivity.
  rewrite !cancelSignal_app, cancelSignal_other_key; [reflexivity|].
  apply (Hother x payload); [left; reflexivity|exact Hx].
Qed.

Lemma precedes_false_le t_bus t_timer :
  precedes t_bus t_timer = false ->
  t_timer <= t_bus /\ (bus_first = true -> t_timer < t_bus).
Proof.
  unfold precedes. destruct bus_first.
  - intros H. apply Z.leb_gt in H. split; [lia|intros _; lia].
  - intros H. apply Z.ltb_ge in H. split; [lia|discriminate].
Qed.

(** Once the first matching unsubscribe after a subscribe is dispatched, at
    [tc], the timer of that subscribe is over: all it emits has a time of at
    most [tc], and below [tc] when the bus goes first at equal times. *)
Theorem timer_ends_at_unsubscribe config n d payload l1 tc state l2 e :
  d_action d = warmupSubscribed payload ->
  cancelSignal (subscriptionKey payload) l1 = [] ->
  In e (warmup config n d
          (l1 ++ at_time tc (warmupUnsubscribed (subscriptionKey payload)) state :: l2)) ->
  fst e <= tc /\ (bus_first = true -> fst e < tc).
Proof.
  intros Hd Hfirst Hin. apply precedes_false_le.
  eapply (warmup_cut_at_unsubscribe config n d _ payload tc _ e Hd); [|exact Hin].
  rewrite cancelSignal_app, Hfirst, cancelSignal_unsubscribed. reflexivity.
Qed.

(** *** warmupRequestHandler, further *)

(** For a key the registry holds, the handler calls the entry's executor
    once, with the warm-up request id and the entry's origin in which
    [maxAge] is -1 (whatever it was) and every other field is kept. When the
    call returns a promise the handler emits exactly one action: fulfilled
    when the promise resolves, failed, with the error, when it rejects. When
    the executor throws before it returns a promise, the call is outside
    [catchError] and the handler throws that error. *)
Theorem warmupRequestHandler_runs_executor state key entry :
  Js.get (subscriptions state) key = Some entry ->
  exists request,
    rq_id request = WARMUP_REQUEST_ID /\
    Js.get (rq_data request) "maxAge" = Some (Js.VNum (-1)) /\
    (forall k, k <> "maxAge" -> Js.get (rq_data request) k = Js.get (origin entry) k) /\
    warmupRequestHandler state (warmupRequested key)
    = match fn_call (executeFn entry) request with
      | Resolved => Js.Ok [warmupFulfilled key]
      | Rejected error => Js.Ok [warmupFailed key error]
      | Threw error => Js.Throw (Js.Error error)
      end.
Proof.
  intros Hentry.
  exists {| rq_id := WARMUP_REQUEST_ID;
            rq_data := Js.set (origin entry) "maxAge" (Js.VNum (-1)) |}.
  split; [reflexivity|]. split; [|split].
  - simpl. rewrite get_set. reflexivity.
  - intros k Hk. simpl. rewrite get_set.
    destruct (String.eqb_spec "maxAge" k); [congruence|reflexivity].
  - simpl. rewrite Hentry. reflexivity.
Qed.

(** *** The leave-group rule, further *)

(** A leave-group action whose parent is in the registry but whose origin
    has no field under the batch key makes the rule throw. *)
Theorem unsubscribeOnBatchEmpty_missing_field state parent bk subscription :
  Js.get (subscriptions state) parent = Some subscription ->
  Js.get (origin subscription) bk = None ->
  unsubscribeOnBatchEmpty state (warmupLeaveGroup parent bk)
  = Js.Throw (Js.TypeError "Cannot read properties of undefined (reading 'length')").
Proof.
  simpl. intros -> Hfield. unfold Js.get_value. rewrite Hfield. reflexivity.
Qed.


(** *** The subscription time-to-live, further *)

Lemma precedes_gt t_bus t_timer :
  t_timer < t_bus -> precedes t_bus t_timer = false.
Proof.
  unfold precedes. intros Hgt.
  destruct bus_first; [apply Z.leb_gt|apply Z.ltb_ge]; lia.
Qed.

Lemma timeoutRace_other_key_reset config key s later :
  sameKey key s = false ->
  List.filter (fun e => isTimeoutResetOf key (snd e)) (timeoutRace config s later) = [].
Proof.
  unfold sameKey. intros Hne. unfold timeoutRace, race.
  assert (Hsym : String.eqb (snd (snd s)) key = false)
    by (rewrite String.eqb_sym; exact Hne).
  destruct (List.find _ later) as [r|]; simpl.
  - destruct (precedes _ _); simpl; [|reflexivity]. rewrite Hsym. reflexivity.
  - reflexivity.
Qed.

Lemma timeouts_renewals config key ks :
  List.filter (fun e => isTimeoutResetOf key (snd e))
    (mergeMap_hot (timeoutRace config) ks)
  = map (fun t => (t, warmupSubscriptionTimeoutReset key))
      (renewals (delayFor (subscriptionTTL config))
         (map fst (List.filter (sameKey key) ks))).
Proof.
  induction ks as [|s ks IH]; [reflexivity|].
  rewrite mergeMap_hot_cons, List.filter_app, IH. clear IH.
  cbn [List.filter]. destruct (sameKey key s) eqn:Hs.
  - rewrite (timeoutRace_same_key _ _ _ _ Hs).
    destruct (List.filter (sameKey key) ks) as [|r rs]; simpl; [reflexivity|].
    destruct (precedes (fst r) (fst s + delayFor (subscriptionTTL config))); simpl;
      [rewrite String.eqb_refl|]; reflexivity.
  - rewrite (timeoutRace_other_key_reset _ _ _ _ Hs). reflexivity.
Qed.

Lemma expirations_lapsed ttl ts1 t ts2 :
  match ts2 with [] => True | t' :: _ => t + ttl < t' end ->
  In (t + ttl) (expirations ttl (ts1 ++ t :: ts2)).
Proof.
  intros Hlapse. induction ts1 as [|x ts1 IH].
  - destruct ts2 as [|t' ts2]; [left; reflexivity|].
    change ([] ++ t :: t' :: ts2) with (t :: t' :: ts2). cbn [expirations].
    rewrite (precedes_gt _ _ Hlapse). left. reflexivity.
  - change ((x :: ts1) ++ t :: ts2) with (x :: (ts1 ++ t :: ts2)).
    destruct (ts1 ++ t :: ts2) as [|y rest] eqn:Hrest.
    + destruct ts1; discriminate.
    + cbn [expirations]. destruct (precedes y (x + ttl)); [exact IH|right; exact IH].
Qed.

Lemma renewals_in_time ttl ts1 t t' ts2 :
  t' < t + ttl ->
  In t' (renewals ttl (ts1 ++ t :: t' :: ts2)).
Proof.
  intros Hrenew. induction ts1 as [|x ts1 IH].
  - change ([] ++ t :: t' :: ts2) with (t :: t' :: ts2). cbn [renewals].
    rewrite (precedes_lt _ _ Hrenew). left. reflexivity.
  - change ((x :: ts1) ++ t :: t' :: ts2) with (x :: (ts1 ++ t :: t' :: ts2)).
    destruct (ts1 ++ t :: t' :: ts2) as [|y rest] eqn:Hrest.
    + destruct ts1; discriminate.
    + cbn [renewals]. destruct (precedes y (x + ttl)); [right; exact IH|exact IH].
Qed.

Lemma In_filter_bool {A} (f : A -> bool) (l : list A) (x : A) :
  In x (List.filter f l) -> In x l.
Proof. intros Hin. apply List.filter_In in Hin. apply Hin. Qed.

(** With a [subscriptionTTL] that is not negative, a subscribe that is the
    last one of its fingerprint, or whose next subscribe of the same
    fingerprint comes more than [subscriptionTTL] later, leads to an
    unsubscribe of the fingerprint [subscriptionTTL] after it. *)
Theorem unsubscribeOnTimeout_lapsed config bus key ts1 t ts2 :
  0 <= subscriptionTTL config ->
  subscribeTimes key bus = ts1 ++ t :: ts2 ->
  match ts2 with [] => True | t' :: _ => t + subscriptionTTL config < t' end ->
  In (t + subscriptionTTL config, warmupUnsubscribed key)
     (unsubscribeOnTimeout config bus).
Proof.
  intros Httl Htimes Hlapse.
  apply (In_filter_bool (fun e => isUnsubscribedOf key (snd e))).
  eapply Permutation_in;
    [symmetry; apply (unsubscribeOnTimeout_expirations config key bus)|].
  rewrite Htimes, (delayFor_nonneg _ Httl).
  apply (List.in_map (fun t0 => (t0, warmupUnsubscribed key))).
  apply expirations_lapsed, Hlapse.
Qed.

(** A subscribe followed, less than [subscriptionTTL] later, by the next
    subscribe of the same key is answered by a timeout-reset action at the
    time of that next subscribe. *)
Theorem unsubscribeOnTimeout_renewed config bus key ts1 t t' ts2 :
  subscribeTimes key bus = ts1 ++ t :: t' :: ts2 ->
  t' < t + subscriptionTTL config ->
  In (t', warmupSubscriptionTimeoutReset key) (unsubscribeOnTimeout config bus).
Proof.
  intros Htimes Hrenew.
  unfold unsubscribeOnTimeout. rewrite In_merge_by_time.
  apply (In_filter_bool (fun e => isTimeoutResetOf key (snd e))).
  rewrite timeouts_renewals. fold (subscribeTimes key bus). rewrite Htimes.
  apply (List.in_map (fun t0 => (t0, warmupSubscriptionTimeoutReset key))).
  apply renewals_in_time. unfold delayFor. lia.
Qed.

Lemma length_mergeMap_singletons {A B} (project : A -> list A -> list B) (l : list A) :
  (forall d later, length (project d later) = 1%nat) ->
  length (mergeMap_hot project l) = length l.
Proof.
  intros Hone. induction l as [|d l IH]; [reflexivity|].
  rewrite mergeMap_hot_cons, length_app, Hone, IH. reflexivity.
Qed.

(** The time-to-live rule answers every subscribe on the bus with exactly
    one action: a timeout-reset or an unsubscribe, for the fingerprint of a
    subscribe on the bus. *)
Theorem unsubscribeOnTimeout_one_per_subscribe config bus :
  length (unsubscribeOnTimeout config bus) = length (keyedSubscription bus) /\
  forall e, In e (unsubscribeOnTimeout config bus) ->
    exists d payload,
      In d bus /\ d_action d = warmupSubscribed payload /\
      (snd e = warmupSubscriptionTimeoutReset (getSubscriptionKey payload) \/
       snd e = warmupUnsubscribed (getSubscriptionKey payload)).
Proof.
  split.
  - unfold unsubscribeOnTimeout, merge_by_time.
    rewrite (Permutation_length (merge_sort_Permutation _ _)).
    apply length_mergeMap_singletons. reflexivity.
  - intros e. unfold unsubscribeOnTimeout.
    rewrite In_merge_by_time, In_mergeMap_hot.
    intros (before & s & later & Hks & Hin).
    assert (Hs : In s (keyedSubscription bus))
      by (rewrite Hks; apply List.in_or_app; right; left; reflexivity).
    unfold keyedSubscription in Hs. apply list_elem_of_In in Hs.
    apply list_elem_of_omap in Hs as (d & Hd & Hsome).
    destruct (subscribed_payload (d_action d)) as [payload|] eqn:Hpayload;
      [|discriminate]. injection Hsome as <-.
    exists d, payload. split; [apply list_elem_of_In; exact Hd|].
    split; [destruct (d_action d); try discriminate; injection Hpayload as ->;
            reflexivity|].
    unfold timeoutRace, race in Hin. simpl in Hin.
    destruct Hin as [<-|[]].
    destruct (List.find _ later) as [r|]; simpl; [|right; reflexivity].
    destruct (precedes (fst r) (d_time d + delayFor (subscriptionTTL config)));
      [left|right]; reflexivity.
Qed.

Lemma keyedSubscription_app bus1 bus2 :
  keyedSubscription (bus1 ++ bus2) = keyedSubscription bus1 ++ keyedSubscription bus2.
Proof. unfold keyedSubscription. apply omap_app. Qed.

Lemma subscribeTimes_app key bus1 bus2 :
  subscribeTimes key (bus1 ++ bus2) = subscribeTimes key bus1 ++ subscribeTimes key bus2.
Proof.
  unfold subscribeTimes. rewrite keyedSubscription_app, List.filter_app, map_app.
  reflexivity.
Qed.

Lemma subscribeTimes_cons_other key d bus :
  (forall payload, d_action d = warmupSubscribed payload ->
                   getSubscriptionKey payload <> key) ->
  subscribeTimes key (d :: bus) = subscribeTimes key bus.
Proof.
  intros Hother. unfold subscribeTimes, keyedSubscription. simpl.
  destruct (d_action d) as [|payload| | | | | | | |] eqn:Hd; try reflexivity.
  simpl. unfold sameKey at 1. simpl.
  destruct (String.eqb_spec key (getSubscriptionKey payload)) as [Heq|]; [|reflexivity].
  exfalso. apply (Hother payload eq_refl). congruence.
Qed.

(** Keys do not interfere in the time-to-live rule: dropping from the bus an
    action that is not a subscribe of [key] leaves the unsubscribes emitted
    for [key] the same. *)
Theorem unsubscribeOnTimeout_keys_independent config bus1 d bus2 key :
  (forall payload, d_action d = warmupSubscribed payload ->
                   getSubscriptionKey payload <> key) ->
  List.filter (fun e => isUnsubscribedOf key (snd e))
    (unsubscribeOnTimeout config (bus1 ++ d :: bus2))
  ≡ₚ List.filter (fun e => isUnsubscribedOf key (snd e))
       (unsubscribeOnTimeout config (bus1 ++ bus2)).
Proof.
  intros Hother. rewrite !unsubscribeOnTimeout_expirations.
  rewrite !subscribeTimes_app, (subscribeTimes_cons_other _ _ _ Hother).
  reflexivity.
Qed.

End Epics.

(** ** The epics on concrete buses *)

(** C1: a stop action for the key of a running timer does not end it. The
    guard [warmupUnsubscribed.match || warmupStopped.match] is the first
    matcher alone, so after [stop(A)] at 1500 the timer started at 0 with
    period 1000 still emits [requested(A)] at 2000 and 3000. *)
Theorem warmup_timer_survives_stop (bus_first : bool) :
  warmupSubscriber sample_key bus_first sample_config 4
    [at_time 0 (warmupSubscribed (subscribe_A (Some 1000))) empty_state;
     at_time 1500 (warmupStopped "A") empty_state]
  = [(0, warmupRequested "A"); (1000, warmupRequested "A");
     (2000, warmupRequested "A"); (3000, warmupRequested "A")].
Proof. destruct bus_first; vm_compute; reflexivity. Qed.

(** The same bus with an unsubscribe in place of the stop: the timer ends. *)
Example warmup_timer_ends_on_unsubscribe (bus_first : bool) :
  warmupSubscriber sample_key bus_first sample_config 4
    [at_time 0 (warmupSubscribed (subscribe_A (Some 1000))) empty_state;
     at_time 1500 (warmupUnsubscribed "A") empty_state]
  = [(0, warmupRequested "A"); (1000, warmupRequested "A")].
Proof. destruct bus_first; vm_compute; reflexivity. Qed.

(** C2: with a threshold of 3, the first failure of a key (error count 1)
    already yields an unsubscribe, though the count has not reached the
    threshold: [errorCount ?? 0 >= threshold] is [errorCount ?? (0 >= threshold)]. *)
Theorem unsubscribeOnFailure_below_threshold :
  unhealthyThreshold sample_config = 3 /\
  unsubscribeOnFailure sample_config (state_failed 1) (warmupFailed "A" "timeout")
  = [warmupUnsubscribed "A"] /\
  reachedThreshold_documented sample_config (state_failed 1) "A" = false.
Proof. repeat split. Qed.

(** C3: a requested action for a key that has no entry, and a leave-group
    action for a parent that has none, make their handlers throw. *)
Theorem handlers_throw_on_unknown_key (WARMUP_REQUEST_ID : string) :
  warmupRequestHandler WARMUP_REQUEST_ID empty_state (warmupRequested "A")
  = Js.Throw (Js.TypeError "Cannot read properties of undefined (reading 'executeFn')") /\
  unsubscribeOnBatchEmpty empty_state (warmupLeaveGroup "group:1" "symbols")
  = Js.Throw (Js.TypeError "Cannot read properties of undefined (reading 'origin')").
Proof. split; reflexivity. Qed.

(** C4, as stated, fails: a group entry whose executor is another function
    object with the same source text is reused. *)
Lemma group_reuse_is_not_by_identity :
  ~ (forall state payload,
        existingKey (selectBatchWarmerSubscriptionKey sample_key state payload) = true <->
        exists entry,
          In entry (subscriptions state) /\
          is_Some (childLastSeenById (snd entry)) /\
          fn_ref (executeFn (snd entry)) = fn_ref (ex_executeFn payload)).
Proof.
  intros Hclaim.
  destruct (Hclaim (state_with_group [Js.VStr "BTC"]) (batch_execute execute_b))
    as [Hreuse _].
  destruct (Hreuse eq_refl) as (entry & Hin & _ & Href).
  destruct Hin as [<-|[]]. discriminate Href.
Qed.

(** C5: leaving a group whose batch still lists a symbol unsubscribes the
    parent, and leaving one whose batch is empty emits nothing: the test
    [length > 0] is the reverse of what the stream's name says. *)
Theorem unsubscribeOnBatchEmpty_inverted :
  unsubscribeOnBatchEmpty (state_with_group [Js.VStr "BTC"])
    (warmupLeaveGroup "group:1" "symbols")
  = Js.Ok [warmupUnsubscribed "group:1"] /\
  unsubscribeOnBatchEmpty (state_with_group []) (warmupLeaveGroup "group:1" "symbols")
  = Js.Ok [].
Proof. split; reflexivity. Qed.

(** C6: the time-to-live rule keys its races by the fingerprint of the
    payload alone, where the scheduler keys the timer by
    [payload.key || fingerprint]. For the actions [executeHandler] emits for
    a new group, the parent's timer runs under its key [group:1], while the
    rule unsubscribes the parent's fingerprint [batch]: no
    [unsubscribe(group:1)] ever comes, though no subscribe follows. *)
Theorem unsubscribeOnTimeout_misses_payload_key (bus_first : bool) :
  let children :=
    createChildSubscriptionActions (batch_execute execute_a) "group:1" (Some "symbols") in
  let parentAction :=
    createParentSubscriptionAction "symbols"
      {| existingKey := false; bw_key := "group:1" |} [("BTC", 5); ("ETH", 5)]
      (batch_execute execute_a) in
  let bus := map (fun a => at_time 0 a empty_state) (children ++ [parentAction]) in
  executeHandler sample_key (fun _ => 5) empty_state
    (warmupExecute (batch_execute execute_a))
  = Js.Ok (children ++ [parentAction]) /\
  payload_key parentAction = Some "group:1" /\
  warmupSubscriber sample_key bus_first sample_config 2 bus
  = [(0, warmupRequested "group:1"); (300000, warmupRequested "group:1")] /\
  unsubscribeOnTimeout sample_key bus_first sample_config bus
  ≡ₚ [(3600000, warmupUnsubscribed "BTC"); (3600000, warmupUnsubscribed "ETH");
      (3600000, warmupUnsubscribed "batch")] /\
  List.filter (fun e => isUnsubscribedOf "group:1" (snd e))
    (unsubscribeOnTimeout sample_key bus_first sample_config bus) = [].
Proof.
  intros children parentAction bus.
  split; [reflexivity|]. split; [reflexivity|].
  split; [destruct bus_first; vm_compute; reflexivity|].
  assert (Hout : unsubscribeOnTimeout sample_key bus_first sample_config bus
                 = [(3600000, warmupUnsubscribed "batch");
                    (3600000, warmupUnsubscribed "BTC");
                    (3600000, warmupUnsubscribed "ETH")])
    by (destruct bus_first; vm_compute; reflexivity).
  rewrite Hout. split; [|reflexivity].
  apply (Permutation_cons_append
           [(3600000, warmupUnsubscribed "BTC"); (3600000, warmupUnsubscribed "ETH")]).
Qed.

(** Subscribes without a key of their own, renewed in time: one unsubscribe
    for the fingerprint, after the last of them. *)
Example unsubscribeOnTimeout_once_after_last_at_A :
  let bus :=
    [at_time 0 (warmupSubscribed (subscribe_A None)) empty_state;
     at_time 1000000 (warmupSubscribed (subscribe_A None)) empty_state;
     at_time 2000000 (warmupSubscribed (subscribe_A None)) empty_state] in
  List.filter (fun e => isUnsubscribedOf "A" (snd e))
    (unsubscribeOnTimeout sample_key true sample_config bus)
  = [(2000000 + subscriptionTTL sample_config, warmupUnsubscribed "A")].
Proof.
  intros bus.
  apply (unsubscribeOnTimeout_once_after_last sample_key true sample_config bus "A"
           [0; 1000000] 2000000).
  - simpl. lia.
  - reflexivity.
  - simpl. lia.
Qed.

(** A first subscribe: the entry is there, set by the reducer before the
    scheduler looks, but not flagged as a duplicate, and the timer starts. *)
Example first_subscribe_starts_timer :
  warmup sample_key true sample_config 1
    (at_time 0 (warmupSubscribed (subscribe_A (Some 1000))) (state_with_A false)) []
  = [(0, warmupRequested "A")].
Proof. reflexivity. Qed.

Lemma duplicate_subscribe_is_heartbeat_witness :
  let d := at_time 500 (warmupSubscribed (subscribe_A (Some 1000))) (state_with_A true) in
  d_action d = warmupSubscribed (subscribe_A (Some 1000)) /\
  Js.get (subscriptions (d_state d)) (subscriptionKey sample_key (subscribe_A (Some 1000)))
  = Some (entry_A true) /\
  isDuplicate (entry_A true) = true /\
  (forall later, warmup sample_key true sample_config 4 d later = []) /\
  (forall before after,
      warmupSubscriber sample_key true sample_config 4 (before ++ d :: after)
      = warmupSubscriber sample_key true sample_config 4 (before ++ after)).
Proof.
  intros d. split; [reflexivity|]. split; [reflexivity|]. split; [reflexivity|].
  exact (duplicate_subscribe_is_heartbeat sample_key true sample_config 4 d
           (subscribe_A (Some 1000)) (entry_A true) eq_refl eq_refl eq_refl).
Defined.

(** C8, as stated, fails: a negative [maxAge] is truthy and becomes the
    period, where the claim has the configured default. *)
Lemma negative_maxAge_is_the_period :
  ~ (forall config payload,
        warmupPeriod config payload
        = match Js.chain (sb_result payload) maxAge with
          | Some age => if 0 <? age then age else warmupInterval config
          | None => warmupInterval config
          end).
Proof.
  intros Hclaim. specialize (Hclaim sample_config (subscribe_A (Some (-1)))).
  discriminate Hclaim.
Qed.

Lemma warmup_timer_period_witness :
  let payload := subscribe_A (Some 1000) in
  let d := at_time 0 (warmupSubscribed payload) empty_state in
  d_action d = warmupSubscribed payload /\
  startsWarmup payload (subscriptionKey sample_key payload) (d_state d) = true /\
  warmupPeriod sample_config payload = 1000 /\
  hd_error (warmup sample_key true sample_config 3 d []) = Some (0, warmupRequested "A").
Proof.
  intros payload d.
  destruct (warmup_timer_period sample_key true sample_config 2 d [] payload
              eq_refl eq_refl) as (Hperiod & _ & Hfirst).
  split; [reflexivity|]. split; [reflexivity|].
  split; [exact Hperiod|exact (Hfirst eq_refl)].
Defined.


(** With an empty registry the same batch gets a parent subscribe instead. *)
Example executeHandler_batch_new_group :
  exists children p,
    executeHandler sample_key (fun _ => 1700000000000) empty_state
      (warmupExecute (batch_execute execute_b))
    = Js.Ok (children ++ [warmupSubscribed p]) /\
    length children = 2%nat /\ sb_key p = Some "group:1" /\ sb_parent p = None.
Proof. eexists [_; _], _. repeat split. Qed.

(** ** Source adapters *)

Lemma withBaseURL_never_empty {Rest} (config : AdapterConfig Rest) (url : string) :
  Js.str_truthy url = true ->
  exists u,
    api_baseURL (withBaseURL config url) = Some u /\
    Js.str_truthy u = true /\
    u = (if Js.opt_truthy Js.str_truthy (api_baseURL config)
         then default url (api_baseURL config) else url) /\
    cfg_rest (withBaseURL config url) = cfg_rest config.
Proof.
  intros Hurl. unfold withBaseURL, Js.or_default, Js.or. simpl.
  destruct (api_baseURL config) as [u|]; simpl.
  - destruct (Js.str_truthy u) eqn:Hu; eexists; repeat split; auto.
  - eexists; repeat split; auto.
Qed.

(** [makeConfig] of the covid-tracker adapter always has a base URL that is
    not empty: the one of the default configuration when that is set and
    not empty, else [https://api.covidtracking.com/v1]; the other settings
    are those of the default configuration. *)
Theorem CovidTracker_makeConfig_baseURL {Rest}
    (getDefaultConfig : option string -> AdapterConfig Rest) (prefix : option string) :
  exists u,
    api_baseURL (CovidTracker.makeConfig getDefaultConfig prefix) = Some u /\
    Js.str_truthy u = true /\
    u = (if Js.opt_truthy Js.str_truthy (api_baseURL (getDefaultConfig prefix))
         then default CovidTracker.DEFAULT_BASE_URL (api_baseURL (getDefaultConfig prefix))
         else CovidTracker.DEFAULT_BASE_URL) /\
    cfg_rest (CovidTracker.makeConfig getDefaultConfig prefix)
    = cfg_rest (getDefaultConfig prefix).
Proof. apply withBaseURL_never_empty. reflexivity. Qed.

(** The same for the adapter whose default endpoint is [bandwidth], with
    [https://chainlink.orchid.com/0] as the fallback. *)
Theorem Orchid_makeConfig_baseURL {Rest}
    (getDefaultConfig : option string -> AdapterConfig Rest) (prefix : option string) :
  exists u,
    api_baseURL (Orchid.makeConfig getDefaultConfig prefix) = Some u /\
    Js.str_truthy u = true /\
    u = (if Js.opt_truthy Js.str_truthy (api_baseURL (getDefaultConfig prefix))
         then default Orchid.DEFAULT_BASE_URL (api_baseURL (getDefaultConfig prefix))
         else Orchid.DEFAULT_BASE_URL) /\
    cfg_rest (Orchid.makeConfig getDefaultConfig prefix)
    = cfg_rest (getDefaultConfig prefix).
Proof. apply withBaseURL_never_empty. reflexivity. Qed.

(** [execute] throws the endpoint error exactly when validation passed and
    the endpoint (the validated one, or [bandwidth] when that is missing or
    empty) is none of [difficulty], [height] and [balance.Name]; the error
    then has status 400, the validated id and a message naming the endpoint. *)
Theorem Orchid_execute_unsupported_endpoint {Rest} (balance_Name : string)
    (validator : Orchid.Validator) (config : AdapterConfig Rest) (e : Orchid.AdapterError) :
  let endpoint :=
    Js.or_default Js.str_truthy (Orchid.validated_endpoint validator)
      Orchid.DEFAULT_ENDPOINT in
  Orchid.execute balance_Name validator config = inl (Orchid.EndpointError e)
  <-> Orchid.error validator = None /\
      endpoint <> "difficulty" /\ endpoint <> "height" /\ endpoint <> balance_Name /\
      e = {| Orchid.jobRunID := Orchid.validated_id validator;
             Orchid.message := "Endpoint " ++ endpoint ++ " not supported.";
             Orchid.statusCode := 400 |}.
Proof.
  intros endpoint. unfold Orchid.execute. fold endpoint.
  destruct (Orchid.error validator) as [err|].
  - split; [discriminate|intros [? _]; discriminate].
  - destruct (String.eqb_spec endpoint "difficulty") as [Hd|Hd]; simpl.
    { split; [discriminate|intros (_ & ? & _); contradiction]. }
    destruct (String.eqb_spec endpoint "height") as [Hh|Hh]; simpl.
    { split; [discriminate|intros (_ & _ & ? & _); contradiction]. }
    destruct (String.eqb_spec endpoint balance_Name) as [Hb|Hb].
    { split; [discriminate|intros (_ & _ & _ & ? & _); contradiction]. }
    split.
    + intros H. injection H as <-. repeat split; auto.
    + intros (_ & _ & _ & _ & ->). reflexivity.
Qed.

(** [difficulty] and [height] go to the stats endpoint before [balance.Name]
    is looked at, and a validation error is thrown before any routing. *)
Theorem Orchid_execute_stats_first {Rest} (balance_Name : string)
    (validator : Orchid.Validator) (config : AdapterConfig Rest) (endpoint : string) :
  Orchid.validated_endpoint validator = Some endpoint ->
  endpoint = "difficulty" \/ endpoint = "height" ->
  Orchid.execute balance_Name validator config
  = match Orchid.error validator with
    | Some err => inl (Orchid.ValidationError err)
    | None => inr (Orchid.stats_execute config)
    end.
Proof.
  intros Hendpoint Hstats. unfold Orchid.execute. rewrite Hendpoint.
  destruct (Orchid.error validator); [reflexivity|].
  destruct Hstats as [-> | ->]; reflexivity.
Qed.

Lemma Orchid_execute_stats_first_witness :
  let validator :=
    {| Orchid.error := None; Orchid.validated_id := "7";
       Orchid.validated_endpoint := Some "height" |} in
  let config := {| api_baseURL := None; cfg_rest := tt |} in
  Orchid.validated_endpoint validator = Some "height" /\
  ("height" = "difficulty" \/ "height" = "height") /\
  Orchid.execute "height" validator config = inr (Orchid.stats_execute config).
Proof.
  intros validator config.
  split; [reflexivity|]. split; [right; reflexivity|].
  exact (Orchid_execute_stats_first "height" validator config "height"
           eq_refl (or_intror eq_refl)).
Defined.

(** Whenever [makeExecute] is given no configuration and hands the request
    to an endpoint, the configuration it passes has a base URL that is not
    empty. *)
Theorem Orchid_makeExecute_default_config {Rest}
    (getDefaultConfig : option string -> AdapterConfig Rest) (balance_Name : string)
    (validator : Orchid.Validator) (config : AdapterConfig Rest) :
  Orchid.makeExecute getDefaultConfig balance_Name None validator
  = inr (Orchid.stats_execute config)
  \/ Orchid.makeExecute getDefaultConfig balance_Name None validator
     = inr (Orchid.balance_execute config) ->
  config = Orchid.makeConfig getDefaultConfig None /\
  Js.opt_truthy Js.str_truthy (api_baseURL config) = true.
Proof.
  unfold Orchid.makeExecute, Orchid.execute.
  destruct (Orchid.error validator); [intros [H|H]; discriminate|].
  assert (Htruthy : Js.opt_truthy Js.str_truthy
                      (api_baseURL (Orchid.makeConfig getDefaultConfig None)) = true).
  { destruct (withBaseURL_never_empty (getDefaultConfig None) Orchid.DEFAULT_BASE_URL
                eq_refl) as (u & Hurl & Hu & _).
    unfold Orchid.makeConfig. rewrite Hurl. exact Hu. }
  destruct (_ || _).
  - intros [H|H]; [|discriminate]. injection H as <-. auto.
  - destruct (String.eqb _ balance_Name); intros [H|H]; try discriminate.
    injection H as <-. auto.
Qed.

Lemma Orchid_makeExecute_default_config_witness :
  let getDefaultConfig :=
    fun _ : option string => {| api_baseURL := Some ""; cfg_rest := tt |} in
  let validator :=
    {| Orchid.error := None; Orchid.validated_id := "7";
       Orchid.validated_endpoint := None |} in
  let config := {| api_baseURL := Some Orchid.DEFAULT_BASE_URL; cfg_rest := tt |} in
  Orchid.makeExecute getDefaultConfig "bandwidth" None validator
  = inr (Orchid.balance_execute config) /\
  config = Orchid.makeConfig getDefaultConfig None /\
  Js.opt_truthy Js.str_truthy (api_baseURL config) = true.
Proof.
  intros getDefaultConfig validator config.
  split; [reflexivity|].
  exact (Orchid_makeExecute_default_config getDefaultConfig "bandwidth" validator config
           (or_intror eq_refl)).
Defined.

(** ** The further properties on concrete inputs *)

Lemma individual_execute_subscribes_root_witness :
  isBatchExecute single_execute = false /\
  exists p,
    executeHandler sample_key (fun _ => 1700000000000) empty_state (warmupExecute single_execute)
    = Js.Ok [warmupSubscribed p] /\
    sb_data p = Some (ex_data single_execute) /\
    sb_parent p = None /\
    startsWarmup p (subscriptionKey sample_key p) (state_with_A true) = false.
Proof.
  destruct (individual_execute_subscribes_root sample_key (fun _ => 1700000000000) empty_state
              single_execute eq_refl)
    as (p & Hout & _ & Hdata & _ & _ & _ & Hparent & _ & Hstarts).
  split; [reflexivity|].
  exists p. repeat split; try assumption.
  rewrite Hstarts. injection Hout as <-. reflexivity.
Defined.

Lemma batch_without_results_single_child_witness :
  result_batchKey batch_execute_no_results = Some "symbols" /\
  Js.str_truthy "symbols" = true /\
  result_results batch_execute_no_results = None /\
  exists child parentAction,
    executeHandler sample_key (fun _ => 5) empty_state (warmupExecute batch_execute_no_results)
    = Js.Ok [warmupSubscribed child; parentAction] /\
    sb_data child = Some [("symbols", Js.VStr "LINK")] /\
    action_childLastSeenById parentAction = Some [(sample_key child, 5)].
Proof.
  destruct (batch_without_results_single_child sample_key (fun _ => 5) empty_state
              batch_execute_no_results "symbols" eq_refl eq_refl eq_refl)
    as (child & parentAction & Hout & Hdata & _ & _ & Hseen).
  split; [reflexivity|]. split; [reflexivity|]. split; [reflexivity|].
  exists child, parentAction. auto.
Defined.

Lemma batch_childLastSeenById_lists_children_witness :
  let now := fun i : nat => 5 + Z.of_nat i in
  isBatchExecute (batch_execute execute_a) = true /\
  exists children parentAction seen,
    executeHandler sample_key now empty_state (warmupExecute (batch_execute execute_a))
    = Js.Ok (children ++ [parentAction]) /\
    action_childLastSeenById parentAction = Some seen /\
    List.NoDup (Js.keys seen) /\
    forall k v, Js.get seen k = Some v ->
      exists i p, children !! i = Some (warmupSubscribed p) /\
                  sample_key p = k /\ v = now i.
Proof.
  intros now.
  destruct (batch_childLastSeenById_lists_children sample_key now empty_state
              (batch_execute execute_a) eq_refl)
    as (children & parentAction & seen & Hout & Hseen & Hnodup & _ & Hstamps).
  split; [reflexivity|].
  exists children, parentAction, seen.
  split; [exact Hout|]. split; [exact Hseen|]. split; [exact Hnodup|].
  intros k v Hget. destruct (Hstamps k v Hget) as (i & p & Hi & Hk & Hv & _).
  exists i, p. auto.
Defined.

(** The two children of the batch get the readings taken for each of them. *)
Example batch_children_stamped_in_turn :
  exists children parentAction,
    executeHandler sample_key (fun i => 5 + Z.of_nat i) empty_state
      (warmupExecute (batch_execute execute_a))
    = Js.Ok (children ++ [parentAction]) /\
    action_childLastSeenById parentAction = Some [("BTC", 5); ("ETH", 6)].
Proof. eexists [_; _], _. split; reflexivity. Qed.

Lemma new_group_data_is_batch_shaped_witness :
  let payload := batch_execute_other_data execute_a in
  result_batchKey payload = Some "symbols" /\
  Js.str_truthy "symbols" = true /\
  existingKey (selectBatchWarmerSubscriptionKey sample_key empty_state payload) = false /\
  exists children p data,
    executeHandler sample_key (fun _ => 5) empty_state (warmupExecute payload)
    = Js.Ok (children ++ [warmupSubscribed p]) /\
    sb_data p = Some data /\
    Js.get_value data "symbols" = Js.VArr [Js.VStr "LINK"].
Proof.
  intros payload.
  destruct (new_group_data_is_batch_shaped sample_key (fun _ => 5) empty_state payload "symbols"
              eq_refl eq_refl eq_refl)
    as (children & p & data & Hout & _ & _ & Hdata & _ & _ & Hwrapped).
  split; [reflexivity|]. split; [reflexivity|]. split; [reflexivity|].
  exists children, p, data. auto.
Defined.

Lemma group_key_ignores_data_witness :
  ex_id (batch_execute execute_a) = ex_id (batch_execute_other_data execute_a) /\
  ex_executeFn (batch_execute execute_a)
  = ex_executeFn (batch_execute_other_data execute_a) /\
  ex_result (batch_execute execute_a) = ex_result (batch_execute_other_data execute_a) /\
  ex_data (batch_execute execute_a) <> ex_data (batch_execute_other_data execute_a) /\
  selectBatchWarmerSubscriptionKey sample_key empty_state (batch_execute execute_a)
  = selectBatchWarmerSubscriptionKey sample_key empty_state
      (batch_execute_other_data execute_a).
Proof.
  split; [reflexivity|]. split; [reflexivity|]. split; [reflexivity|].
  split; [discriminate|].
  exact (group_key_ignores_data sample_key empty_state (batch_execute execute_a)
           (batch_execute_other_data execute_a) eq_refl eq_refl eq_refl).
Defined.

Lemma batch_children_start_no_timer_witness :
  let payload := batch_execute execute_b in
  let state := state_with_group [Js.VStr "BTC"] in
  let group := selectBatchWarmerSubscriptionKey sample_key state payload in
  let children := createChildSubscriptionActions payload "group:1" (Some "symbols") in
  let parentAction :=
    warmupJoinGroup {| jg_parent := "group:1";
                       jg_childLastSeenById := [("BTC", 5); ("ETH", 5)];
                       jg_batchKey := "symbols" |} in
  isBatchExecute payload = true /\
  Js.str_truthy (bw_key group) = true /\
  executeHandler sample_key (fun _ => 5) state (warmupExecute payload)
  = Js.Ok (children ++ [parentAction]) /\
  existingKey group = true /\
  (forall c, In c (children ++ [parentAction]) ->
             warmup sample_key true sample_config 4 (at_time 0 c state) [] = []).
Proof.
  intros payload state group children parentAction.
  destruct (batch_children_start_no_timer sample_key true (fun _ => 5) state payload children
              parentAction eq_refl eq_refl eq_refl) as [Hchildren Hparent].
  split; [reflexivity|]. split; [reflexivity|]. split; [reflexivity|].
  split; [reflexivity|].
  intros c Hin. apply List.in_app_or in Hin as [Hin|[<-|[]]].
  - apply Hchildren, Hin.
  - apply Hparent. reflexivity.
Defined.

Lemma new_group_stops_its_children_witness :
  let payload := batch_execute execute_a in
  let children := createChildSubscriptionActions payload "group:1" (Some "symbols") in
  let parentAction :=
    createParentSubscriptionAction "symbols"
      {| existingKey := false; bw_key := "group:1" |} [("BTC", 5); ("ETH", 5)] payload in
  isBatchExecute payload = true /\
  executeHandler sample_key (fun _ => 5) empty_state (warmupExecute payload)
  = Js.Ok (children ++ [parentAction]) /\
  existingKey (selectBatchWarmerSubscriptionKey sample_key empty_state payload) = false /\
  stopOnBatch parentAction = [warmupStopped "BTC"; warmupStopped "ETH"] /\
  forall p, In (warmupSubscribed p) children ->
            In (warmupStopped (sample_key p)) (stopOnBatch parentAction).
Proof.
  intros payload children parentAction.
  destruct (new_group_stops_its_children sample_key (fun _ => 5) empty_state payload children
              parentAction eq_refl eq_refl) as [Hnew _].
  split; [reflexivity|]. split; [reflexivity|]. split; [reflexivity|].
  split; [reflexivity|].
  intros p Hin. apply (Hnew eq_refl). exists p. auto.
Defined.

Lemma warmupSubscriber_emits_ticks_of_roots_witness :
  let bus := [at_time 0 (warmupSubscribed (subscribe_A (Some (-1)))) empty_state] in
  In (2, warmupRequested "A") (warmupSubscriber sample_key true sample_config 4 bus) /\
  exists d payload k,
    In d bus /\ d_action d = warmupSubscribed payload /\
    warmupRequested "A" = warmupRequested (subscriptionKey sample_key payload) /\
    (k < 4)%nat /\
    2 = d_time d + Z.of_nat k * timerInterval (warmupPeriod sample_config payload).
Proof.
  intros bus.
  assert (Hin : In (2, warmupRequested "A")
                   (warmupSubscriber sample_key true sample_config 4 bus))
    by (vm_compute; auto).
  split; [exact Hin|].
  destruct (warmupSubscriber_emits_ticks_of_roots sample_key true sample_config 4 bus
              (2, warmupRequested "A") Hin)
    as (d & payload & k & Hd & Haction & _ & Hkey & Hk & Htime).
  exists d, payload, k.
  split; [exact Hd|]. split; [exact Haction|]. split; [exact Hkey|].
  split; [exact Hk|exact Htime].
Defined.

Lemma unsubscribe_leaves_other_timers_witness :
  let before := [at_time 0 (warmupSubscribed (subscribe_A (Some 1000))) empty_state] in
  (forall d payload, In d before -> d_action d = warmupSubscribed payload ->
                     subscriptionKey sample_key payload <> "B") /\
  warmupSubscriber sample_key true sample_config 4
    (before ++ at_time 1500 (warmupUnsubscribed "B") empty_state :: [])
  = warmupSubscriber sample_key true sample_config 4 (before ++ []).
Proof.
  intros before.
  assert (Hother : forall d payload, In d before ->
                     d_action d = warmupSubscribed payload ->
                     subscriptionKey sample_key payload <> "B").
  { intros d payload [<-|[]] Haction. injection Haction as <-. discriminate. }
  split; [exact Hother|].
  exact (unsubscribe_leaves_other_timers sample_key true sample_config 4 before 1500
           "B" empty_state [] Hother).
Defined.

Lemma timer_ends_at_unsubscribe_witness :
  let payload := subscribe_A (Some 1000) in
  let d := at_time 0 (warmupSubscribed payload) empty_state in
  let later :=
    [] ++ at_time 1500 (warmupUnsubscribed (subscriptionKey sample_key payload))
            empty_state :: [] in
  d_action d = warmupSubscribed payload /\
  cancelSignal (subscriptionKey sample_key payload) [] = [] /\
  In (1000, warmupRequested "A") (warmup sample_key true sample_config 4 d later) /\
  1000 <= 1500.
Proof.
  intros payload d later.
  assert (Hin : In (1000, warmupRequested "A")
                   (warmup sample_key true sample_config 4 d later))
    by (vm_compute; auto).
  split; [reflexivity|]. split; [reflexivity|]. split; [exact Hin|].
  exact (proj1 (timer_ends_at_unsubscribe sample_key true sample_config 4 d payload []
                  1500 empty_state [] (1000, warmupRequested "A")
                  eq_refl eq_refl Hin)).
Defined.

Lemma warmupRequestHandler_runs_executor_witness :
  Js.get (subscriptions (state_with_A false)) "A" = Some (entry_A false) /\
  exists request,
    rq_id request = "9001" /\
    Js.get (rq_data request) "maxAge" = Some (Js.VNum (-1)) /\
    Js.get (rq_data request) "symbol" = Some (Js.VStr "A") /\
    warmupRequestHandler "9001" (state_with_A false) (warmupRequested "A")
    = Js.Ok [warmupFulfilled "A"].
Proof.
  destruct (warmupRequestHandler_runs_executor "9001" (state_with_A false) "A"
              (entry_A false) eq_refl) as (request & Hid & Hage & Hkept & Hout).
  split; [reflexivity|].
  exists request. split; [exact Hid|]. split; [exact Hage|].
  split; [rewrite Hkept; [reflexivity|discriminate]|exact Hout].
Defined.

Lemma unsubscribeOnBatchEmpty_missing_field_witness :
  let state :=
    {| subscriptions := [("group:1", group_entry_without "pairs")]; warmups := ∅ |} in
  Js.get (subscriptions state) "group:1" = Some (group_entry_without "pairs") /\
  Js.get (origin (group_entry_without "pairs")) "symbols" = None /\
  unsubscribeOnBatchEmpty state (warmupLeaveGroup "group:1" "symbols")
  = Js.Throw (Js.TypeError "Cannot read properties of undefined (reading 'length')").
Proof.
  intros state.
  split; [reflexivity|]. split; [reflexivity|].
  exact (unsubscribeOnBatchEmpty_missing_field state "group:1" "symbols"
           (group_entry_without "pairs") eq_refl eq_refl).
Defined.

Lemma unsubscribeOnTimeout_lapsed_witness :
  let bus :=
    [at_time 0 (warmupSubscribed (subscribe_A None)) empty_state;
     at_time 4000000 (warmupSubscribed (subscribe_A None)) empty_state] in
  0 <= subscriptionTTL sample_config /\
  subscribeTimes sample_key "A" bus = [] ++ 0 :: [4000000] /\
  0 + subscriptionTTL sample_config < 4000000 /\
  In (0 + subscriptionTTL sample_config, warmupUnsubscribed "A")
     (unsubscribeOnTimeout sample_key true sample_config bus).
Proof.
  intros bus.
  assert (Hlapse : 0 + subscriptionTTL sample_config < 4000000) by (simpl; lia).
  assert (Httl : 0 <= subscriptionTTL sample_config) by (simpl; lia).
  split; [exact Httl|]. split; [reflexivity|]. split; [exact Hlapse|].
  exact (unsubscribeOnTimeout_lapsed sample_key true sample_config bus "A" [] 0
           [4000000] Httl eq_refl Hlapse).
Defined.

Lemma unsubscribeOnTimeout_renewed_witness :
  let bus :=
    [at_time 0 (warmupSubscribed (subscribe_A None)) empty_state;
     at_time 1000000 (warmupSubscribed (subscribe_A None)) empty_state] in
  subscribeTimes sample_key "A" bus = [] ++ 0 :: 1000000 :: [] /\
  1000000 < 0 + subscriptionTTL sample_config /\
  In (1000000, warmupSubscriptionTimeoutReset "A")
     (unsubscribeOnTimeout sample_key true sample_config bus).
Proof.
  intros bus.
  assert (Hrenew : 1000000 < 0 + subscriptionTTL sample_config) by (simpl; lia).
  split; [reflexivity|]. split; [exact Hrenew|].
  exact (unsubscribeOnTimeout_renewed sample_key true sample_config bus "A" [] 0
           1000000 [] eq_refl Hrenew).
Defined.

Lemma unsubscribeOnTimeout_keys_independent_witness :
  let bus1 := [at_time 0 (warmupSubscribed (subscribe_A None)) empty_state] in
  let d := at_time 20 (warmupSubscribed (subscribe_A None)) empty_state in
  let other :=
    at_time 10
      (warmupSubscribed (with_data (subscribe_A None) [("symbol", Js.VStr "B")]))
      empty_state in
  (forall payload, d_action other = warmupSubscribed payload ->
                   sample_key payload <> "A") /\
  List.filter (fun e => isUnsubscribedOf "A" (snd e))
    (unsubscribeOnTimeout sample_key true sample_config (bus1 ++ other :: [d]))
  ≡ₚ List.filter (fun e => isUnsubscribedOf "A" (snd e))
       (unsubscribeOnTimeout sample_key true sample_config (bus1 ++ [d])).
Proof.
  intros bus1 d other.
  assert (Hother : forall payload, d_action other = warmupSubscribed payload ->
                                   sample_key payload <> "A")
    by (intros payload Haction; injection Haction as <-; discriminate).
  split; [exact Hother|].
  exact (unsubscribeOnTimeout_keys_independent sample_key true sample_config bus1 other
           [d] "A" Hother).
Defined.
